(** * anvil: the per-client rate-limiting middleware (middleware.go)

    A shallow embedding of [rateLimiterMiddleware], its four preset
    constructors and its sweeper goroutine, together with models of the
    library pieces it calls ([time], [net.SplitHostPort],
    [http.ResponseWriter], [rate.Limiter]).

    Conventions.
    - A [time.Time] is the integer number of nanoseconds since the Unix
      epoch; a [time.Duration] is an int64 count of nanoseconds.
    - Every call of [time.Now()] in the source is an explicit argument of
      the definition that embeds the call, in program order.
    - A [*rate.Limiter] is an address ([loc]) into a store of limiter
      states, so that two pointers to one limiter alias.
    - The region between [mu.Lock()] and [mu.Unlock()] is one atomic
      transition of the registry. *)

From Stdlib Require Import ZArith Lia Ascii String DecimalString.
From Stdlib.Strings Require Import Byte.
From stdpp Require Import gmap strings list fin_maps.

Local Open Scope Z_scope.

(** ** Package [time] *)

Module Time.

Definition Nanosecond : Z := 1.
Definition Second : Z := 1000000000 * Nanosecond.
Definition Minute : Z := 60 * Second.

Definition maxDuration : Z := 2 ^ 63 - 1.
Definition minDuration : Z := - 2 ^ 63.

(** [t.Sub(u)]: the difference, saturated to the int64 range of a
    [Duration]. *)
Definition Sub (t u : Z) : Z :=
  let d := t - u in
  if d >? maxDuration then maxDuration
  else if d <? minDuration then minDuration
  else d.

(** [time.Since(t)] is [time.Now().Sub(t)]; [now] is that clock reading. *)
Definition Since (now t : Z) : Z := Sub now t.

(** The zero [time.Time] (January 1, year 1, 00:00 UTC). *)
Definition zero : Z := -62135596800 * Second.

End Time.

(** ** [net.SplitHostPort] *)

Module Net.

Local Open Scope nat_scope.

(** Index of the first occurrence of [c] in [s]; [None] stands for -1. *)
Fixpoint IndexByte (s : string) (c : ascii) : option nat :=
  match s with
  | EmptyString => None
  | String a s' =>
      if Ascii.eqb a c then Some 0
      else match IndexByte s' c with
           | Some i => Some (S i)
           | None => None
           end
  end.

(** Index of the last occurrence of [c] in [s]; [None] stands for -1. *)
Fixpoint LastIndexByte (s : string) (c : ascii) : option nat :=
  match s with
  | EmptyString => None
  | String a s' =>
      match LastIndexByte s' c with
      | Some i => Some (S i)
      | None => if Ascii.eqb a c then Some 0 else None
      end
  end.

(** [s[lo:hi]] and [s[lo:]]. *)
Definition slice (s : string) (lo hi : nat) : string :=
  String.substring lo (hi - lo) s.
Definition slice_from (s : string) (lo : nat) : string :=
  String.substring lo (String.length s - lo) s.

Definition AddrError : Type := string.
Definition missingPort : AddrError := "missing port in address".
Definition tooManyColons : AddrError := "too many colons in address".

(** The checks shared by both branches, after [host], [j] and [k] are
    known; [i] is the index of the last colon. *)
Definition finish (hostport host : string) (i j k : nat)
  : (string * string) + AddrError :=
  if IndexByte (slice_from hostport j) "[" is Some _
  then inr "unexpected '[' in address"%string
  else if IndexByte (slice_from hostport k) "]" is Some _
  then inr "unexpected ']' in address"%string
  else inl (host, slice_from hostport (i + 1)).

Definition SplitHostPort (hostport : string)
  : (string * string) + AddrError :=
  match LastIndexByte hostport ":" with
  | None => inr missingPort
  | Some i =>
      match String.get 0 hostport with
      | Some "["%char =>
          match IndexByte hostport "]" with
          | None => inr "missing ']' in address"%string
          | Some end_ =>
              if end_ + 1 =? String.length hostport then inr missingPort
              else if end_ + 1 =? i then
                finish hostport (slice hostport 1 end_) i 1 (end_ + 1)
              else if String.get (end_ + 1) hostport is Some ":"%char
              then inr tooManyColons
              else inr missingPort
          end
      | _ =>
          let host := slice hostport 0 i in
          if IndexByte host ":" is Some _ then inr tooManyColons
          else finish hostport host i 0 0
      end
  end.

End Net.

(** ** [http.ResponseWriter] and [encoding/json] *)

Module Http.

Definition StatusOK : Z := 200.
Definition StatusTooManyRequests : Z := 429.
Definition StatusInternalServerError : Z := 500.

(** A field value as handed to the JSON encoder; a [time.Time] field
    stays an instant (its RFC 3339 text is the [time] package's business).
    An object is the list of its fields in declaration order. *)
Inductive JSON : Type :=
| JString (s : string)
| JBool (b : bool)
| JTime (t : Z).

Inductive Chunk : Type :=
| Raw (bytes : string)
| Doc (fields : list (string * JSON)).

Record Request : Type := mkRequest {
  Method : string;
  Path : string;
  RemoteAddr : string
}.

(** What a handler has done to its [http.ResponseWriter]: the header map,
    the status code once the header is written, and the body chunks in
    the order written. *)
Record ResponseWriter : Type := mkResponseWriter {
  header : gmap string (list string);
  status : option Z;
  body : list Chunk
}.

Definition fresh : ResponseWriter :=
  {| header := ∅; status := None; body := [] |}.

(** [w.Header().Add(key, value)] *)
Definition HeaderAdd (key value : string) (w : ResponseWriter)
  : ResponseWriter :=
  {| header := <[key := default [] (header w !! key) ++ [value]]> (header w);
     status := status w;
     body := body w |}.

(** [checkWriteHeaderCode]: the codes [WriteHeader] does not panic on. *)
Definition checkWriteHeaderCode (code : Z) : bool :=
  (100 <=? code) && (code <=? 999).

(** The 1xx codes net/http sends as informational headers, after which
    the header still counts as not written; 101 is not one of them. *)
Definition informational (code : Z) : bool :=
  (100 <=? code) && (code <=? 199) && negb (code =? 101).

(** [bodyAllowedForStatus] *)
Definition bodyAllowedForStatus (status : Z) : bool :=
  negb ((100 <=? status) && (status <=? 199))
  && negb (status =? 204) && negb (status =? 304).

(** Whether [w.WriteHeader(code)] panics: it does when no header is
    written yet and [checkWriteHeaderCode] refuses the code. The panic
    comes before any change to the writer and unwinds the caller. *)
Definition WriteHeader_panics (code : Z) (w : ResponseWriter) : bool :=
  match status w with
  | Some _ => false
  | None => negb (checkWriteHeaderCode code)
  end.

(** [w.WriteHeader(code)], as the writer is left by the call: a call
    after the header is written is ignored, a call that panics
    ([WriteHeader_panics]) has changed nothing, an informational code
    leaves the header unwritten, and any other code is recorded. *)
Definition WriteHeader (code : Z) (w : ResponseWriter) : ResponseWriter :=
  match status w with
  | Some _ => w
  | None =>
      if negb (checkWriteHeaderCode code) || informational code then w
      else {| header := header w; status := Some code; body := body w |}
  end.

(** A chunk of no bytes. *)
Definition emptyChunk (c : Chunk) : bool :=
  match c with
  | Raw EmptyString => true
  | _ => false
  end.

(** [w.Write(p)]: writes the header with 200 first if none was written,
    and then the bytes, unless there are none or the status allows no
    body ([ErrBodyNotAllowed]). [body] is what [Write] accepted; what the
    connection sends of it (nothing for a HEAD request) is its own
    business. *)
Definition Write (c : Chunk) (w : ResponseWriter) : ResponseWriter :=
  let w' := WriteHeader StatusOK w in
  if emptyChunk c || negb (bodyAllowedForStatus (default StatusOK (status w')))
  then w'
  else {| header := header w'; status := status w'; body := body w' ++ [c] |}.

(** [json.NewEncoder(w).Encode(v)] *)
Definition Encode (v : list (string * JSON)) (w : ResponseWriter)
  : ResponseWriter :=
  Write (Doc v) w.

End Http.

(** ** The token bucket behind [*rate.Limiter] *)

Module Rate.

Import Time.

(** Modelled from the spec: the state of a [rate.Limiter] of
    golang.org/x/time/rate, which is not part of the repository, as the
    TokenBucket of the design (capacity, refill rate per second, tokens,
    last refill time). [tokens] counts billionths of a token, so that the
    refill [elapsed * limit] of an elapsed time in nanoseconds at an
    integral rate per second is exact. *)
Record Limiter : Type := mkLimiter {
  limit : Z;
  burst : Z;
  tokens : Z;
  last : Z
}.

(** Modelled from the spec: [rate.NewLimiter(r, b)], a bucket created
    with [tokens = capacity]. *)
Definition NewLimiter (r b : Z) : Limiter :=
  {| limit := r; burst := b; tokens := b * Second; last := Time.zero |}.

(** Modelled from the spec: the refill step of [tryAcquire], adding
    [elapsed * refillRatePerSecond] tokens, capped at [capacity]. A clock
    reading before the last refill counts as no elapsed time. *)
Definition refill (now : Z) (lim : Limiter) : Z :=
  let elapsed := Z.max 0 (now - last lim) in
  Z.min (burst lim * Second) (tokens lim + elapsed * limit lim).

(** Modelled from the spec: [lim.Allow()], the [tryAcquire(now)] of the
    design: refill, set the last refill time, then take one token if a
    whole one is there. [now] is the clock reading inside [Allow]. *)
Definition Allow (now : Z) (lim : Limiter) : bool * Limiter :=
  let tok := refill now lim in
  if Second <=? tok
  then (true, {| limit := limit lim; burst := burst lim;
                 tokens := tok - Second; last := now |})
  else (false, {| limit := limit lim; burst := burst lim;
                  tokens := tok; last := now |}).

(** [n] calls of [Allow] in a row that all read the clock [now]: the
    verdicts in order, and the state left. *)
Fixpoint Allow_repeat (now : Z) (n : nat) (lim : Limiter)
  : list bool * Limiter :=
  match n with
  | O => ([], lim)
  | S n' =>
      let r := Allow now lim in
      let rs := Allow_repeat now n' r.2 in
      (r.1 :: rs.1, rs.2)
  end.

(** A bucket whose last refill was at [now] and whose tokens respect the
    capacity: the state every call of [Allow] at [now] leaves. *)
Definition settled (now : Z) (lim : Limiter) : Prop :=
  last lim = now ∧ tokens lim ≤ burst lim * Second.

End Rate.

(** ** Package [anvil]: middleware.go *)

Module Anvil.

Import Time Http.

(** The address of a [rate.Limiter]; [RateLimit] is [*rate.Limiter]. *)
Abbreviation loc := positive (only parsing).
Abbreviation RateLimit := positive (only parsing).

(** [type Message struct] with its [json] field tags. *)
Record Message : Type := mkMessage {
  Status : string;
  Body : string;
  Locked : bool;
  Timestamp : Z
}.

Definition MessageJSON (m : Message) : list (string * JSON) :=
  [ ("status"%string, JString (Status m));
    ("body"%string, JString (Body m));
    ("locked"%string, JBool (Locked m));
    ("timestamp"%string, JTime (Timestamp m)) ].

(** The four package-level limiters, allocated once at package
    initialisation. *)
Definition RateLimitPublicAPI : RateLimit := 1%positive.
Definition RateLimitInternalAPI : RateLimit := 2%positive.
Definition RateLimitUserWebAPI : RateLimit := 3%positive.
Definition RateLimitStrictAPI : RateLimit := 4%positive.

Definition package_init : gmap loc Rate.Limiter :=
  <[RateLimitPublicAPI := Rate.NewLimiter 5000 100]>
  (<[RateLimitInternalAPI := Rate.NewLimiter 10000 200]>
  (<[RateLimitUserWebAPI := Rate.NewLimiter 300 30]>
  (<[RateLimitStrictAPI := Rate.NewLimiter 100 10]> ∅))).

(** [type client struct] of [rateLimiterMiddleware]. *)
Record client : Type := mkClient {
  limiter : loc;
  lastSeen : Z
}.

(** *** The sweeper goroutine (lines 215-227) *)

(** The test of line 221 for the entry under [ip]; [now] is the clock
    reading of [time.Since] at that entry. *)
Definition idle (now : Z) (c : client) : bool :=
  Since now (lastSeen c) >? 5 * Minute.

(** One pass of the loop body, the [range] over the map with its
    [delete]: [acc] is the map being mutated, [m] the entries ranged
    over. The clock is read anew at every entry: [now ip] is the reading
    at the visit of [ip]. *)
Definition sweep_range (now : string → Z) (m acc : gmap string client)
  : gmap string client :=
  map_fold (λ ip c acc, if idle (now ip) c then delete ip acc else acc)
           acc m.

Definition sweep (now : string → Z) (clients : gmap string client)
  : gmap string client :=
  sweep_range now clients clients.

(** What the environment decides of one turn of the goroutine's loop
    (lines 216-226): the instant at which [time.Sleep] returns, the clock
    reading of [time.Since] at the visit of each entry, and the instant
    at which the lock is released. *)
Record Turn : Type := mkTurn {
  woke : Z;
  reads : string → Z;
  released : Z
}.

(** [time.Sleep(d)] called at [t] returns at [woke]: it pauses the
    goroutine for at least [d]. *)
Definition Sleep (d t woke : Z) : Prop := t + d ≤ woke.

(** The turns a goroutine that enters its loop at [t] can take: each
    begins with [time.Sleep(time.Minute)], reads the clock during the
    pass that follows, and leaves the next turn to begin when the lock is
    released. *)
Fixpoint scheduled (t : Z) (turns : list Turn) : Prop :=
  match turns with
  | [] => True
  | u :: rest =>
      Sleep Minute t (woke u)
      ∧ (∀ ip, woke u ≤ reads u ip ≤ released u)
      ∧ scheduled (released u) rest
  end.

(** The goroutine: an endless loop of [time.Sleep(time.Minute)] followed
    by one locked pass; the registry after the turns taken so far. *)
Definition sweeper (turns : list Turn)
           (clients : gmap string client) : gmap string client :=
  foldl (λ cs u, sweep (reads u) cs) clients turns.

(** *** The request path (lines 229-258) *)

(** Lines 238-240: the entry of a first-seen address holds the limiter
    the middleware was built with. *)
Definition getOrCreate (rateLimit : RateLimit) (ip : string)
           (clients : gmap string client) : gmap string client :=
  match clients !! ip with
  | Some _ => clients
  | None => <[ip := {| limiter := rateLimit; lastSeen := Time.zero |}]> clients
  end.

(** Line 241: [clients[ip].lastSeen = time.Now()]. *)
Definition touch (ip : string) (now : Z) (clients : gmap string client)
  : gmap string client :=
  alter (λ c, {| limiter := limiter c; lastSeen := now |}) ip clients.

(** Line 242: [clients[ip].limiter.Allow()], on the limiter the entry
    points to. [None] is the nil-pointer panic. *)
Definition tryAcquire (ip : string) (now : Z)
           (clients : gmap string client) (store : gmap loc Rate.Limiter)
  : option (bool * gmap loc Rate.Limiter) :=
  c ← clients !! ip;
  lim ← store !! limiter c;
  Some ((Rate.Allow now lim).1, <[limiter c := (Rate.Allow now lim).2]> store).

(** The locked region, lines 237-243/256. *)
Definition admission (rateLimit : RateLimit) (ip : string) (t_seen t_allow : Z)
           (store : gmap loc Rate.Limiter) (clients : gmap string client)
  : option (bool * gmap loc Rate.Limiter * gmap string client) :=
  let clients' := touch ip t_seen (getOrCreate rateLimit ip clients) in
  '(ok, store') ← tryAcquire ip t_allow clients' store;
  Some (ok, store', clients').

(** The three clock readings of one request, in program order: line 241,
    inside [Allow] at line 242, and line 249. *)
Record Clock : Type := mkClock {
  t_seen : Z;
  t_allow : Z;
  t_reject : Z
}.

Definition at_instant (t : Z) : Clock :=
  {| t_seen := t; t_allow := t; t_reject := t |}.

(** Lines 245-250. *)
Definition rejection (now : Z) : Message :=
  {| Status := "Request Failed";
     Body := "Rate limit reached. Please wait 5 minutes and try again.";
     Locked := true;
     Timestamp := now |}.

(** A downstream [http.Handler]: it acts on the response writer, on the
    limiter store (it may itself be a rate-limiting middleware) and on a
    state [D] of its own. *)
Definition Handler (D : Type) : Type :=
  ResponseWriter → Request → gmap loc Rate.Limiter * D →
  ResponseWriter * (gmap loc Rate.Limiter * D).

(** The handler returned by [rateLimiterMiddleware(next, rateLimit)];
    [clients] is the map captured by the closure. *)
Definition ServeHTTP {D : Type} (next : Handler D) (rateLimit : RateLimit)
           (clk : Clock) (w : ResponseWriter) (r : Request)
           (clients : gmap string client) (σ : gmap loc Rate.Limiter * D)
  : option (ResponseWriter * gmap string client * (gmap loc Rate.Limiter * D)) :=
  match Net.SplitHostPort (RemoteAddr r) with
  | inr _ => Some (WriteHeader StatusInternalServerError w, clients, σ)
  | inl (ip, _) =>
      match admission rateLimit ip (t_seen clk) (t_allow clk) σ.1 clients with
      | None => None
      | Some (false, store', clients') =>
          Some (Encode (MessageJSON (rejection (t_reject clk)))
                       (WriteHeader StatusTooManyRequests w),
                clients', (store', σ.2))
      | Some (true, store', clients') =>
          let '(w', σ') := next w r (store', σ.2) in
          Some (w', clients', σ')
      end
  end.

(** A downstream handler instrumented with the number of times it has
    been invoked. *)
Definition counted {D : Type} (next : Handler D) : Handler (nat * D) :=
  λ w r σ,
    let res := next w r (σ.1, σ.2.2) in
    (res.1, (res.2.1, (S σ.2.1, res.2.2))).

(** [writeJSON], the helper the other handlers of the package answer
    with. *)
Definition writeJSON (w : ResponseWriter) (status : Z)
           (v : list (string * JSON)) : ResponseWriter :=
  let w1 := HeaderAdd "Content-Type" "application/json" w in
  if WriteHeader_panics status w1 then w1
  else Encode v (WriteHeader status w1).

(** *** Handlers built by the four constructors, and the process *)

(** The mutable part of what the closure returned by
    [rateLimiterMiddleware] captures: the [rateLimit] argument and the
    [clients] map ([mu] is the atomicity of the locked regions). The
    [next] argument is the parameter of [ServeHTTP]; in the process below
    every handler wraps [ok_handler]. *)
Record Middleware : Type := mkMiddleware {
  rateLimit : RateLimit;
  clients : gmap string client
}.

(** [rateLimiterMiddleware(next, rateLimit)]: an empty map (line 213); the
    goroutine started at line 215 is the [Sweep] event below. *)
Definition rateLimiterMiddleware (rateLimit : RateLimit) : Middleware :=
  {| rateLimit := rateLimit; clients := ∅ |}.

Definition RateLimitPublic : Middleware :=
  rateLimiterMiddleware RateLimitPublicAPI.
Definition RateLimitInternal : Middleware :=
  rateLimiterMiddleware RateLimitInternalAPI.
Definition RateLimitWeb : Middleware :=
  rateLimiterMiddleware RateLimitUserWebAPI.
Definition RateLimitStrict : Middleware :=
  rateLimiterMiddleware RateLimitStrictAPI.

Inductive Preset : Type := Public | Internal | Web | Strict.

Definition constructor (p : Preset) : Middleware :=
  match p with
  | Public => RateLimitPublic
  | Internal => RateLimitInternal
  | Web => RateLimitWeb
  | Strict => RateLimitStrict
  end.

(** The burst of each preset (lines 38, 43, 48, 53). *)
Definition capacity (p : Preset) : Z :=
  match p with
  | Public => 100
  | Internal => 200
  | Web => 30
  | Strict => 10
  end.

(** The process: the limiter store and the handlers built so far, in
    order of construction. *)
Record World : Type := mkWorld {
  limiters : gmap loc Rate.Limiter;
  handlers : list Middleware
}.

Definition boot : World :=
  {| limiters := package_init; handlers := [] |}.

(** A downstream handler that answers 200 and touches no limiter. *)
Definition ok_handler : Handler unit :=
  λ w _ σ, (WriteHeader StatusOK w, σ).

Definition request (remoteAddr : string) : Request :=
  {| Method := "GET"; Path := "/"; RemoteAddr := remoteAddr |}.

Inductive Event : Type :=
| Build (p : Preset)
| Serve (i : nat) (remoteAddr : string) (clk : Clock)
| Sweep (i : nat) (now : string → Z).

(** One transition; the observation is the status code answered, if the
    event is a request. [None] is a panic, or an event for a handler that
    was never built. *)
Definition step (e : Event) (w : World) : option (option Z * World) :=
  match e with
  | Build p =>
      Some (None, {| limiters := limiters w;
                     handlers := handlers w ++ [constructor p] |})
  | Serve i remoteAddr clk =>
      m ← handlers w !! i;
      '(rw, clients', σ) ←
        ServeHTTP ok_handler (rateLimit m) clk fresh (request remoteAddr)
                  (clients m) (limiters w, ());
      Some (status rw,
            {| limiters := σ.1;
               handlers := <[i := {| rateLimit := rateLimit m;
                                     clients := clients' |}]> (handlers w) |})
  | Sweep i now =>
      m ← handlers w !! i;
      Some (None,
            {| limiters := limiters w;
               handlers := <[i := {| rateLimit := rateLimit m;
                                     clients := sweep now (clients m) |}]>
                           (handlers w) |})
  end.

Fixpoint run (es : list Event) (w : World) : option (list (option Z) * World) :=
  match es with
  | [] => Some ([], w)
  | e :: es' =>
      '(o, w') ← step e w;
      '(os, w'') ← run es' w';
      Some (o :: os, w'')
  end.

(** The presets of the [Build] events of a trace: entry [i] is the
    constructor that built handler [i]. *)
Definition built (es : list Event) : list Preset :=
  omap (λ e, if e is Build p then Some p else None) es.

(** The number of requests of a trace that were forwarded. *)
Definition admitted (os : list (option Z)) : nat :=
  length (filter (λ o, o = Some StatusOK) os).

(** The status a verdict of [Allow] is answered with when the downstream
    handler is [ok_handler]. *)
Definition status_of (ok : bool) : option Z :=
  Some (if ok then StatusOK else StatusTooManyRequests).

(** A run of requests to handler [i], each with its remote address and
    its clock readings. *)
Definition requests_to (i : nat) (reqs : list (string * Clock))
  : list Event :=
  (λ r, Serve i r.1 r.2) <$> reqs.

(** The host part of a remote address that splits. *)
Definition identity (remoteAddr : string) : option string :=
  match Net.SplitHostPort remoteAddr with
  | inl (ip, _) => Some ip
  | inr _ => None
  end.

(** The registry a handler built with [rl] is left with by a run of
    requests (lines 238-241 of each, in order). *)
Definition registry_after (rl : RateLimit) (reqs : list (string * Clock))
           (cs : gmap string client) : gmap string client :=
  foldl (λ cs r,
           match identity r.1 with
           | Some ip => touch ip (t_seen r.2) (getOrCreate rl ip cs)
           | None => cs
           end) cs reqs.

(** *** Invariants of the process *)

(** Every entry of a handler's registry holds the limiter the handler
    was built with. *)
Definition aliased (m : Middleware) : Prop :=
  map_Forall (λ _ c, limiter c = rateLimit m) (clients m).

(** [m] is a handler built by the constructor of preset [p]. *)
Definition built_by (p : Preset) (m : Middleware) : Prop :=
  rateLimit m = rateLimit (constructor p) ∧ aliased m.

(** The limiters of the process are the four of the package, and handler
    [i] is one built by the [i]-th constructor called. *)
Definition consistent (ps : list Preset) (w : World) : Prop :=
  dom (limiters w) = dom package_init ∧ Forall2 built_by ps (handlers w).

(** The package-level limiter of every preset is live and has the burst
    it was created with. *)
Definition configured (store : gmap loc Rate.Limiter) : Prop :=
  ∀ p, ∃ lim, store !! rateLimit (constructor p) = Some lim
              ∧ Rate.burst lim = capacity p.

End Anvil.

(** ** Concrete traffic *)

Module Scenario.

Import Time Http Anvil.

(** An instant, and two client addresses. *)
Definition T : Z := 1700000000 * Second.
Definition A : string := "10.0.0.1:40000".
Definition B : string := "10.0.0.2:40000".

(** [n] requests to handler [i] from [addr], all reading the clock [t]. *)
Definition burst_at (i : nat) (addr : string) (t : Z) (n : nat)
  : list Event :=
  replicate n (Serve i addr (at_instant t)).

(** The status codes a trace is answered with. *)
Definition statuses (es : list Event) : option (list (option Z)) :=
  fst <$> run es boot.

(** The registry entry of [ip] in handler [i] after a trace. *)
Definition entry_after (es : list Event) (i : nat) (ip : string)
  : option (option client) :=
  w ← snd <$> run es boot;
  m ← handlers w !! i;
  Some (clients m !! ip).

(** The number of limiters in the store after a trace. *)
Definition limiters_after (es : list Event) : option nat :=
  (λ r, size (limiters r.2)) <$> run es boot.

(** The response handler [i] gives, after a trace, to one more request. *)
Definition response_after (es : list Event) (i : nat) (addr : string)
           (clk : Clock) : option ResponseWriter :=
  w ← snd <$> run es boot;
  m ← handlers w !! i;
  (λ r, r.1.1) <$>
    ServeHTTP ok_handler (rateLimit m) clk fresh (request addr)
              (clients m) (limiters w, ()).

(** Client A spends the whole Strict burst at [T]; client B then makes
    its first request at [T]. *)
Definition A_saturates_then_B : list Event :=
  Build Strict :: burst_at 0 A T 10 ++ [Serve 0 B (at_instant T)].

Definition B_alone : list Event :=
  [Build Strict; Serve 0 B (at_instant T)].

(** Client A makes one request at [T] and goes silent; the sweeper pass
    at [T] + 6 min finds it idle. *)
Definition A_goes_idle : list Event :=
  [Build Strict; Serve 0 A (at_instant T); Sweep 0 (λ _, T + 6 * Minute)].

(** At [T] + 6 min 1 s client B spends the burst, and at the same instant
    client A comes back. *)
Definition A_returns_after_eviction : list Event :=
  A_goes_idle
  ++ burst_at 0 B (T + 6 * Minute + Second) 10
  ++ burst_at 0 A (T + 6 * Minute + Second) 10.

(** Client B makes one request at [T]; client A, first seen at [T], then
    issues capacity + 1 = 11 requests at [T]. *)
Definition A_first_seen_after_B : list Event :=
  Build Strict :: Serve 0 B (at_instant T) :: burst_at 0 A T 11.

(** Two first-time requests of one identity, from two connections, in
    both orders. *)
Definition two_first_requests : list Event :=
  [Build Strict; Serve 0 "9.9.9.9:1000" (at_instant T);
   Serve 0 "9.9.9.9:1001" (at_instant T)].
Definition two_first_requests_swapped : list Event :=
  [Build Strict; Serve 0 "9.9.9.9:1001" (at_instant T);
   Serve 0 "9.9.9.9:1000" (at_instant T)].

(** Two handlers built by [RateLimitPublic], one request and one sweeper
    pass. *)
Definition two_public_handlers : list Event :=
  [Build Public; Build Public; Serve 0 A (at_instant T);
   Sweep 1 (λ _, T + Minute)].

(** Eleven first-time requests of one identity on the Strict handler
    that take the lock within a microsecond: the [k]-th reads the clock
    [k] tenths of a microsecond after [T]. *)
Definition eleven_within_a_microsecond : list Event :=
  Build Strict
  :: ((λ k, Serve 0 "9.9.9.9:1000" (at_instant (T + Z.of_nat k * 100)))
        <$> seq 0 11).

(** Client B spends the whole Strict burst at [T]; two first-time
    requests of the identity 9.9.9.9 follow at the same instant. *)
Definition first_requests_after_another_client : list Event :=
  Build Strict :: burst_at 0 B T 10
  ++ [Serve 0 "9.9.9.9:1000" (at_instant T);
      Serve 0 "9.9.9.9:1001" (at_instant T)].

Definition strict_built : World :=
  {| limiters := package_init; handlers := [RateLimitStrict] |}.

Definition two_public_answers : list (option Z) :=
  default [] (fst <$> run two_public_handlers boot).
Definition two_public_world : World :=
  default boot (snd <$> run two_public_handlers boot).

(** The Strict handler once client A has spent the burst at [T]: the
    limiter store and the handler's registry. *)
Definition saturated : World :=
  default boot (snd <$> run (Build Strict :: burst_at 0 A T 10) boot).
Definition saturated_registry : gmap string client :=
  default ∅ (clients <$> handlers saturated !! 0%nat).

(** A remote address without a port. *)
Definition no_port : string := "10.0.0.1".

(** What the first request of client A at [T] leaves of the package's
    limiters, and the registry it leaves. *)
Definition store_after_first : gmap loc Rate.Limiter :=
  <[RateLimitStrictAPI := {| Rate.limit := 100; Rate.burst := 10;
                             Rate.tokens := 9 * Second; Rate.last := T |}]>
  package_init.
Definition registry_after_first : gmap string client :=
  {[ "10.0.0.1"%string := {| limiter := RateLimitStrictAPI; lastSeen := T |} ]}.

(** A registry with client 10.0.0.1 last seen at [T] and client
    10.0.0.2 last seen three minutes later, and the first six turns of a
    sweeper that entered its loop at [T] and returns from each sleep a
    millisecond late. *)
Definition two_clients : gmap string client :=
  {[ "10.0.0.1"%string := {| limiter := RateLimitStrictAPI; lastSeen := T |};
     "10.0.0.2"%string := {| limiter := RateLimitStrictAPI;
                             lastSeen := T + 3 * Minute |} ]}.
Definition turn_at (t : Z) : Turn :=
  {| woke := t; reads := λ _, t; released := t |}.
Definition six_turns : list Turn :=
  (λ k, turn_at (T + Z.of_nat k * (Minute + 1000000))) <$> seq 1 6.

End Scenario.

(** ** Traces of the process without their sweeper passes *)

Module Trace.

Import Anvil.

(** The trace with every sweeper pass deleted. *)
Fixpoint without_sweeps (es : list Event) : list Event :=
  match es with
  | [] => []
  | Sweep _ _ :: es' => without_sweeps es'
  | e :: es' => e :: without_sweeps es'
  end.

(** The status codes of the requests of a trace, in order. *)
Definition answers (os : list (option Z)) : list Z := omap id os.

(** The identities of the requests a trace sends to handler [i] with a
    remote address that splits. *)
Fixpoint identities_seen (i : nat) (es : list Event) : gset string :=
  match es with
  | [] => ∅
  | Serve j remoteAddr _ :: es' =>
      (if decide (j = i)
       then match identity remoteAddr with
            | Some ip => {[ip]}
            | None => ∅
            end
       else ∅) ∪ identities_seen i es'
  | _ :: es' => identities_seen i es'
  end.

(** Two states of the process with the same limiters and, handler by
    handler, the same limiter pointer, whatever the registries hold. *)
Definition same_limiters (w1 w2 : World) : Prop :=
  limiters w1 = limiters w2
  ∧ Forall2 (λ m1 m2, rateLimit m1 = rateLimit m2) (handlers w1) (handlers w2).

End Trace.

(** ** Package [strings] *)

Module Strings.

(** [strings.Split(s, sep)] for a separator of one byte, which is what
    every call in the repository passes. *)
Fixpoint Split (s : string) (sep : ascii) : list string :=
  match s with
  | EmptyString => [EmptyString]
  | String c s' =>
      if Ascii.eqb c sep then EmptyString :: Split s' sep
      else match Split s' sep with
           | x :: xs => String c x :: xs
           | [] => [String c EmptyString]
           end
  end.

(** [strings.Count(s, sep)] for a separator of one byte. *)
Fixpoint Count (s : string) (sep : ascii) : nat :=
  match s with
  | EmptyString => O
  | String c s' => (if Ascii.eqb c sep then 1 else 0) + Count s' sep
  end.

(** [strings.Join(elems, sep)] for a separator of one byte. *)
Fixpoint Join (elems : list string) (sep : ascii) : string :=
  match elems with
  | [] => EmptyString
  | [x] => x
  | x :: rest => x ++ String sep (Join rest sep)
  end.

End Strings.

(** ** Requests with headers and a context; [http.Error]; [log/slog] *)

Module Web.

Import Http.

(** The context keys the middlewares use: [http.LocalAddrContextKey], and
    a key of the type [SessionName] declared inside [ClerkAuthMiddleware]. *)
Inductive Key : Type :=
| LocalAddrContextKey
| SessionName (name : string).

(** A context value: a [net.Addr], given by its [String()], or the claims
    of a session, of the type [S] of the Clerk client. *)
Inductive Value (S : Type) : Type :=
| Addr (text : string)
| Session (claims : S).

Arguments Addr {S} text.
Arguments Session {S} claims.

Definition key_eqb (k1 k2 : Key) : bool :=
  match k1, k2 with
  | LocalAddrContextKey, LocalAddrContextKey => true
  | SessionName a, SessionName b => String.eqb a b
  | _, _ => false
  end.

(** A [context.Context] as the values attached to it, the innermost
    [WithValue] first. *)
Definition WithValue {S : Type} (ctx : list (Key * Value S)) (k : Key)
           (v : Value S) : list (Key * Value S) :=
  (k, v) :: ctx.

(** [ctx.Value(k)]; [None] is the nil interface. *)
Fixpoint CtxValue {S : Type} (ctx : list (Key * Value S)) (k : Key)
  : option (Value S) :=
  match ctx with
  | [] => None
  | (k', v) :: ctx' => if key_eqb k' k then Some v else CtxValue ctx' k
  end.

(** An [*http.Request] with the parts the other middlewares read: the
    request line and remote address, [URL.Host], the header and the
    context. *)
Record Req (S : Type) : Type := mkReq {
  line : Request;
  URLHost : string;
  ReqHeader : gmap string (list string);
  ReqContext : list (Key * Value S)
}.

Arguments mkReq {S} line URLHost ReqHeader ReqContext.
Arguments line {S} r.
Arguments URLHost {S} r.
Arguments ReqHeader {S} r.
Arguments ReqContext {S} r.

(** [r.WithContext(ctx)] *)
Definition WithContext {S : Type} (r : Req S) (ctx : list (Key * Value S))
  : Req S :=
  {| line := line r; URLHost := URLHost r; ReqHeader := ReqHeader r;
     ReqContext := ctx |}.

(** [h.Get(key)] for a key in canonical form: the first value, or the
    empty string. *)
Definition HeaderGet (h : gmap string (list string)) (key : string) : string :=
  match h !! key with
  | Some (v :: _) => v
  | _ => EmptyString
  end.

(** [w.Header().Set(key, value)] *)
Definition HeaderSet (key value : string) (w : ResponseWriter)
  : ResponseWriter :=
  {| header := <[key := [value]]> (header w);
     status := status w;
     body := body w |}.

(** [http.Error(w, error, code)]: the two headers it sets, the status and
    the message followed by a newline. *)
Definition Error (w : ResponseWriter) (error : string) (code : Z)
  : ResponseWriter :=
  let w1 := HeaderSet "X-Content-Type-Options" "nosniff"
              (HeaderSet "Content-Type" "text/plain; charset=utf-8" w) in
  if WriteHeader_panics code w1 then w1
  else Write (Raw (error ++ String "010"%char EmptyString))
             (WriteHeader code w1).

Definition StatusBadRequest : Z := 400.
Definition StatusUnauthorized : Z := 401.

(** A handler over such requests, acting on a state [D] of its own. *)
Definition Handler (S D : Type) : Type :=
  ResponseWriter → Req S → D → ResponseWriter * D.

(** A call that returns, or panics. *)
Inductive Outcome (A : Type) : Type :=
| Returned (a : A)
| Panicked.

Arguments Returned {A} a.
Arguments Panicked {A}.

End Web.

Module Slog.

(** A log record of level INFO: its message and its attributes. *)
Record Entry : Type := mkEntry {
  Msg : string;
  Attrs : list (string * string)
}.

(** How [slog] turns the variadic arguments of [Info] into attributes
    when all of them are strings: each string is a key and the argument
    after it its value; a last string without a value is filed under
    [!BADKEY]. *)
Fixpoint argsToAttrs (args : list string) : list (string * string) :=
  match args with
  | k :: v :: rest => (k, v) :: argsToAttrs rest
  | [x] => [("!BADKEY"%string, x)]
  | [] => []
  end.

(** [slog.Info(msg, args...)] *)
Definition Info (msg : string) (args : list string) : Entry :=
  {| Msg := msg; Attrs := argsToAttrs args |}.

End Slog.

(** ** Package [anvil]: the other middlewares of middleware.go *)

Module Middlewares.

Import Http Web.

(** [fmt.Sprintf("%s - %s (%s)", r.Method, r.URL.Path, r.RemoteAddr)] *)
Definition request_line (r : Request) : string :=
  Method r ++ " - " ++ Path r ++ " (" ++ RemoteAddr r ++ ")".

(** The handler returned by [LoggerMiddleware(next)]; the state is the
    log written so far and the state of [next]. *)
Definition LoggerMiddleware {S D : Type} (next : Handler S D)
           (w : ResponseWriter) (r : Req S) (σ : list Slog.Entry * D)
  : Outcome (ResponseWriter * (list Slog.Entry * D)) :=
  match Net.SplitHostPort (RemoteAddr (line r)) with
  | inr _ => Returned (WriteHeader StatusInternalServerError w, σ)
  | inl (ip, _) =>
      match CtxValue (ReqContext r) LocalAddrContextKey with
      | Some (Addr srvAddr) =>
          let entry :=
            Slog.Info "ip_address"
                      [ip; "host"%string; URLHost r; "server_addr"%string;
                       srvAddr; "user_agent"%string;
                       HeaderGet (ReqHeader r) "User-Agent";
                       request_line (line r)] in
          let res := next w r σ.2 in
          Returned (res.1, (σ.1 ++ [entry], res.2))
      | _ => Panicked
      end
  end.

(** The constant [ClerkSessionName]. *)
Definition ClerkSessionName : Key := SessionName "clerksession".

(** The handler returned by [ClerkAuthMiddleware(clerk)(next)];
    [VerifyToken] is the client's method, [None] its error. *)
Definition ClerkAuthMiddleware {S D : Type} (VerifyToken : string → option S)
           (next : Handler S D) (w : ResponseWriter) (r : Req S) (d : D)
  : ResponseWriter * D :=
  let authHeader := HeaderGet (ReqHeader r) "Authorization" in
  if String.eqb authHeader "" then (Error w "Unauthorized" StatusUnauthorized, d)
  else
    let parts := Strings.Split authHeader " " in
    if negb (length parts =? 2)%nat
       || negb (String.eqb (nth 0 parts EmptyString) "Bearer")
    then (Error w "Invalid authorization header" StatusUnauthorized, d)
    else
      let sessionToken := nth 1 parts EmptyString in
      match VerifyToken sessionToken with
      | None => (Error w "Invalid session" StatusUnauthorized, d)
      | Some session =>
          next w (WithContext r (WithValue (ReqContext r) ClerkSessionName
                                           (Session session))) d
      end.

(** The handler returned by [ClerkWebhookMiddleware(clerk, secret)(next)];
    the [clerk] argument is not used. *)
Definition ClerkWebhookMiddleware {S D : Type} (secret : string)
           (next : Handler S D) (w : ResponseWriter) (r : Req S) (d : D)
  : ResponseWriter * D :=
  let signingSecret := secret in
  if String.eqb signingSecret ""
  then (Error w "Webhook signing secret not configured"
              StatusInternalServerError, d)
  else
    let signature := HeaderGet (ReqHeader r) "X-Clerk-Signature" in
    if String.eqb signature ""
    then (Error w "Invalid clerk webhook signature: " StatusUnauthorized, d)
    else if negb (String.eqb signingSecret signature)
    then (Error w "Invalid webhook signature: " StatusUnauthorized, d)
    else next w r d.

End Middlewares.

(** ** Package [anvil]: responses *)

Module Responses.

Import Http Web.

(** [type APIFunc func(http.ResponseWriter, *http.Request) error], on a
    request type [R] and a state [D]; [None] is the nil error, [Some e] an
    error whose [Error()] is [e]. *)
Definition APIFunc (R D : Type) : Type :=
  ResponseWriter → R → D → ResponseWriter * D * option string.

Section Responses.

(** [t.String()] of the [time] package. *)
Variable TimeString : Z → string.

(** [formatError(err)]: the map, as the JSON encoder writes it, keys
    sorted; [now] is the clock reading. *)
Definition formatError (err : string) (now : Z) : list (string * JSON) :=
  [ ("error"%string, JString err);
    ("timestamp"%string, JString (TimeString now)) ].

Definition RespondWithError (w : ResponseWriter) (e : string) (now : Z)
  : ResponseWriter :=
  Anvil.writeJSON w StatusBadRequest (formatError e now).

Definition RespondWithSuccess (w : ResponseWriter) (status : Z)
           (v : list (string * JSON)) : ResponseWriter :=
  Anvil.writeJSON w status v.

(** [HandlerFunc(f)]; [now] is the clock reading of [formatError], taken
    only when [f] returns an error. *)
Definition HandlerFunc {R D : Type} (f : APIFunc R D) (now : Z)
           (w : ResponseWriter) (r : R) (d : D) : ResponseWriter * D :=
  match f w r d with
  | (w', d', Some err) => (RespondWithError w' err now, d')
  | (w', d', None) => (w', d')
  end.

End Responses.

End Responses.

(** ** Package [anvil]: the server builder *)

Module Server.

Import Time.

Definition DefaultWriteTimeout : Z := Second * 30.
Definition DefaultReadTimeout : Z := Second * 15.
Definition DefaultIdleTimeout : Z := Second * 120.

(** [type HTTPServer struct]; [H] is the type of handlers, [None] the nil
    handler. *)
Record HTTPServer (H : Type) : Type := mkHTTPServer {
  Address : string;
  WriteTimeout : Z;
  ReadTimeout : Z;
  IdleTimeout : Z;
  Handler : option H
}.

Arguments mkHTTPServer {H} Address WriteTimeout ReadTimeout IdleTimeout Handler.
Arguments Address {H} h.
Arguments WriteTimeout {H} h.
Arguments ReadTimeout {H} h.
Arguments IdleTimeout {H} h.
Arguments Handler {H} h.

(** [NewServer(address)] *)
Definition NewServer {H : Type} (address : string) : HTTPServer H :=
  {| Address := ":" ++ address;
     ReadTimeout := DefaultReadTimeout;
     WriteTimeout := DefaultWriteTimeout;
     IdleTimeout := DefaultIdleTimeout;
     Handler := None |}.

(** The four setters: each returns [&HTTPServer{Field: value}], a new
    struct with the other fields at their zero values. *)
Definition WithWriteTimeout {H : Type} (h : HTTPServer H) (wto : Z)
  : HTTPServer H :=
  {| Address := ""; WriteTimeout := wto; ReadTimeout := 0; IdleTimeout := 0;
     Handler := None |}.

Definition WithReadTimeout {H : Type} (h : HTTPServer H) (rto : Z)
  : HTTPServer H :=
  {| Address := ""; WriteTimeout := 0; ReadTimeout := rto; IdleTimeout := 0;
     Handler := None |}.

Definition WithIdleTimeout {H : Type} (h : HTTPServer H) (ito : Z)
  : HTTPServer H :=
  {| Address := ""; WriteTimeout := 0; ReadTimeout := 0; IdleTimeout := ito;
     Handler := None |}.

Definition WithHandler {H : Type} (h : HTTPServer H) (handler : H)
  : HTTPServer H :=
  {| Address := ""; WriteTimeout := 0; ReadTimeout := 0; IdleTimeout := 0;
     Handler := Some handler |}.

(** One call of a setter, and a chain of such calls on a server. *)
Inductive Setter (H : Type) : Type :=
| SetWriteTimeout (wto : Z)
| SetReadTimeout (rto : Z)
| SetIdleTimeout (ito : Z)
| SetHandler (handler : H).

Arguments SetWriteTimeout {H} wto.
Arguments SetReadTimeout {H} rto.
Arguments SetIdleTimeout {H} ito.
Arguments SetHandler {H} handler.

Definition call {H : Type} (h : HTTPServer H) (s : Setter H) : HTTPServer H :=
  match s with
  | SetWriteTimeout wto => WithWriteTimeout h wto
  | SetReadTimeout rto => WithReadTimeout h rto
  | SetIdleTimeout ito => WithIdleTimeout h ito
  | SetHandler handler => WithHandler h handler
  end.

Definition chain {H : Type} (h : HTTPServer H) (calls : list (Setter H))
  : HTTPServer H :=
  foldl call h calls.

(** The zero value of [HTTPServer]. *)
Definition zero {H : Type} : HTTPServer H :=
  {| Address := ""; WriteTimeout := 0; ReadTimeout := 0; IdleTimeout := 0;
     Handler := None |}.

End Server.

(** ** Package [tools]: utilities.go *)

Module Utilities.

(** A value of type [interface{}] in a [map[string]interface{}]: nil, a
    string, a bool, a [time.Time], or a value of some other dynamic type
    (named by [kind]). *)
Inductive Any : Type :=
| Nil
| Str (s : string)
| Bool (b : bool)
| TimeValue (t : Z)
| Other (kind : string).

Definition SafeString (data : gmap string Any) (key : string) : string :=
  match data !! key with
  | Some (Str strValue) => strValue
  | _ => EmptyString
  end.

Definition SafeTime (data : gmap string Any) (key : string) : Z :=
  match data !! key with
  | Some (TimeValue timeValue) => timeValue
  | _ => Time.zero
  end.

Definition SafeBool (data : gmap string Any) (key : string) : bool :=
  match data !! key with
  | Some (Bool boolValue) => boolValue
  | _ => false
  end.

End Utilities.

(** ** Package [tools]: json_web_tokens.go *)

Module JWT.

Import Time Web.

Record JWT : Type := mkJWT {
  Issuer : string;
  SigningKey : list byte
}.

Record JWTClaims : Type := mkJWTClaims {
  ID : string;
  Email : string
}.

Definition NewJsonWebToken (issuer : string) (key : list byte) : JWT :=
  {| Issuer := issuer; SigningKey := key |}.

(** The value of an int64 computation: the result modulo 2^64, read as a
    signed number. *)
Definition wrap64 (z : Z) : Z :=
  (z + 2 ^ 63) mod 2 ^ 64 - 2 ^ 63.

(** [jwt.RegisteredClaims] as [Generate] fills it; [N] is the type of a
    [*jwt.NumericDate]. *)
Record RegisteredClaims (N : Type) : Type := mkRegisteredClaims {
  ExpiresAt : N;
  IssuedAt : N;
  NotBefore : N;
  ClaimIssuer : string;
  Subject : string;
  ClaimID : string
}.

Arguments mkRegisteredClaims {N} ExpiresAt IssuedAt NotBefore ClaimIssuer
          Subject ClaimID.
Arguments ExpiresAt {N} r.
Arguments IssuedAt {N} r.
Arguments NotBefore {N} r.
Arguments ClaimIssuer {N} r.
Arguments Subject {N} r.
Arguments ClaimID {N} r.

(** The lifetime [Generate] computes from [*expiration], once the pointer
    is known not to be nil: [tokenExpiration] starts at zero and is set to
    the int64 product of [*expiration] and [time.Minute], when
    [*expiration >= 0]. *)
Definition tokenExpiration (expiration : Z) : Z :=
  if 0 <=? expiration then wrap64 (expiration * Minute) else 0.

Section Generate.

Variable N : Type.

(** [jwt.NewNumericDate] and, for the HS256 token built from the claims,
    [token.SignedString(key)]. *)
Variable NewNumericDate : Z → N.
Variable SignedString : RegisteredClaims N → list byte → string + string.

(** [tkn.Generate(claims, expiration)]; [expiration] is the pointer, [None]
    for nil; [t1], [t2], [t3] are the three clock readings. The statement
    [if *expiration >= 0] dereferences the pointer whether or not the nil
    test before it fired. *)
Definition Generate (tkn : JWT) (claims : JWTClaims) (expiration : option Z)
           (t1 t2 t3 : Z) : Outcome (string * option string) :=
  match expiration with
  | None => Panicked
  | Some e =>
      let jwtClaims :=
        {| ExpiresAt := NewNumericDate (t1 + tokenExpiration e);
           IssuedAt := NewNumericDate t2;
           NotBefore := NewNumericDate t3;
           ClaimIssuer := Issuer tkn;
           Subject := Email claims;
           ClaimID := ID claims |} in
      match SignedString jwtClaims (SigningKey tkn) with
      | inr err => Returned (EmptyString, Some err)
      | inl ss => Returned (ss, None)
      end
  end.

End Generate.

(** The dynamic type of [token.Method]. *)
Inductive SigningMethod : Type :=
| SigningMethodHMAC (alg : string)
| SigningMethodOther (alg : string).

(** A claim value of a [jwt.MapClaims]: a string, or a value of another
    type given by the text [fmt.Sprint] prints for it. *)
Inductive ClaimValue : Type :=
| ClaimString (s : string)
| ClaimOther (text : string).

(** [token.Claims]: a [jwt.MapClaims], or claims of another type. *)
Inductive Claims : Type :=
| MapClaims (m : gmap string ClaimValue)
| OtherClaims.

Record Token : Type := mkToken {
  Method : SigningMethod;
  TokenClaims : Claims
}.

(** [fmt.Sprint(claims[key])]; a missing key is the nil interface. *)
Definition Sprint (v : option ClaimValue) : string :=
  match v with
  | None => "<nil>"
  | Some (ClaimString s) => s
  | Some (ClaimOther text) => text
  end.

(** The key function [Verify] passes to [jwt.Parse]. *)
Definition keyfunc (tkn : JWT) (token : Token) : list byte + string :=
  match Method token with
  | SigningMethodHMAC _ => inl (SigningKey tkn)
  | SigningMethodOther _ => inr "unexpected signing method"%string
  end.

Section Verify.

(** [jwt.Parse(tokenString, keyFunc)] *)
Variable Parse : string → (Token → list byte + string) → Token + string.

(** [tkn.Verify(tokenString)] *)
Definition Verify (tkn : JWT) (tokenString : string)
  : JWTClaims * option string :=
  match Parse tokenString (keyfunc tkn) with
  | inr err => ({| ID := ""; Email := "" |}, Some err)
  | inl token =>
      match TokenClaims token with
      | MapClaims claims =>
          ({| ID := Sprint (claims !! "jti"%string);
              Email := Sprint (claims !! "sub"%string) |}, None)
      | OtherClaims =>
          ({| ID := ""; Email := "" |}, Some "token claims not found"%string)
      end
  end.

End Verify.

End JWT.

(** ** Package [tools]: the Argon2 password hashes *)

#[global] Instance byte_eq_decision : EqDecision byte := Byte.byte_eq_dec.

Module Hash.

Record params : Type := mkParams {
  memory : Z;
  iterations : Z;
  parallelism : Z;
  saltLength : Z;
  keyLength : Z
}.

Definition errInvalidHash : string :=
  "the encoded hash is not in the correct format".
Definition errIncompatibleVersion : string :=
  "incompatible version of argon2".

(** [argon2.Version] *)
Definition Version : Z := 19.

(** [%d] of [fmt.Sprintf] for a number that is not negative. *)
Definition itoa (n : Z) : string :=
  DecimalString.NilZero.string_of_uint (N.to_uint (Z.to_N n)).

(** [subtle.ConstantTimeCompare(x, y)]: 1 if the slices are equal, else 0. *)
Definition ConstantTimeCompare (x y : list byte) : Z :=
  if @list_eq_dec byte Byte.byte_eq_dec x y then 1 else 0.

Section Hash.

(** The library calls: [fmt.Sscanf(s, "v=%d", &version)] and
    [fmt.Sscanf(s, "m=%d,t=%d,p=%d", ...)], with the error on the right;
    [base64.RawStdEncoding]'s [EncodeToString] and strict [DecodeString];
    [argon2.IDKey(password, salt, time, memory, threads, keyLen)]; and
    [rand.Read] on a fresh slice of the given length. *)
Variable SscanfVersion : string → Z + string.
Variable SscanfParams : string → (Z * Z * Z) + string.
Variable EncodeToString : list byte → string.
Variable DecodeString : string → list byte + string.
Variable IDKey : list byte → list byte → Z → Z → Z → Z → list byte.
Variable randRead : Z → list byte + string.

(** [generateRandomBytes(n)] *)
Definition generateRandomBytes (n : Z) : list byte + string :=
  match randRead n with
  | inr err => inr err
  | inl b => inl b
  end.

(** The string [GenerateHashString] formats from the parameters, the salt
    and the derived key. *)
Definition encodedHash (p : params) (salt hash : list byte) : string :=
  "$argon2id$v=" ++ itoa Version
  ++ "$m=" ++ itoa (memory p) ++ ",t=" ++ itoa (iterations p)
  ++ ",p=" ++ itoa (parallelism p)
  ++ "$" ++ EncodeToString salt ++ "$" ++ EncodeToString hash.

Definition GenerateHashString (input : string) : string * option string :=
  let p := {| memory := 64 * 1024; iterations := 3; parallelism := 2;
              saltLength := 16; keyLength := 32 |} in
  match generateRandomBytes (saltLength p) with
  | inr err => (EmptyString, Some err)
  | inl salt =>
      let hash := IDKey (list_byte_of_string input) salt (iterations p)
                        (memory p) (parallelism p) (keyLength p) in
      (encodedHash p salt hash, None)
  end.

(** [decodeHash(encodedHash)]; the lengths are converted to uint32. *)
Definition decodeHash (encodedHash : string)
  : (params * list byte * list byte) + string :=
  let vals := Strings.Split encodedHash "$" in
  if negb (length vals =? 6)%nat then inr errInvalidHash
  else
    match SscanfVersion (nth 2 vals EmptyString) with
    | inr err => inr err
    | inl version =>
        if negb (version =? Version) then inr errIncompatibleVersion
        else
          match SscanfParams (nth 3 vals EmptyString) with
          | inr err => inr err
          | inl (m, t, p) =>
              match DecodeString (nth 4 vals EmptyString) with
              | inr err => inr err
              | inl salt =>
                  match DecodeString (nth 5 vals EmptyString) with
                  | inr err => inr err
                  | inl hash =>
                      inl ({| memory := m; iterations := t; parallelism := p;
                              saltLength := Z.of_nat (length salt) mod 2 ^ 32;
                              keyLength := Z.of_nat (length hash) mod 2 ^ 32 |},
                           salt, hash)
                  end
              end
          end
    end.

Definition IsMatchingInputAndHash (input encodedHash : string)
  : bool * option string :=
  match decodeHash encodedHash with
  | inr err => (false, Some err)
  | inl (p, salt, hash) =>
      let otherHash := IDKey (list_byte_of_string input) salt (iterations p)
                             (memory p) (parallelism p) (keyLength p) in
      if ConstantTimeCompare hash otherHash =? 1 then (true, None)
      else (false, None)
  end.

End Hash.

End Hash.

(** ** Concrete inputs for the rest of the package *)

Module Examples.

Import Time Http Web Anvil.

(** A downstream handler that answers 200 and counts its calls. *)
Definition counting : Web.Handler string nat :=
  λ w _ n, (WriteHeader StatusOK w, S n).

(** A request from 10.0.0.1 as the server hands it to a handler, with the
    local address in its context. *)
Definition served : Req string :=
  {| line := request "10.0.0.1:40000";
     URLHost := "api.example.com";
     ReqHeader := {[ "User-Agent"%string := ["curl/8.0"%string] ]};
     ReqContext := [(LocalAddrContextKey, Addr "127.0.0.1:8080")] |}.

(** The same request built without a server, so without a local
    address. *)
Definition unserved : Req string :=
  {| line := request "10.0.0.1:40000";
     URLHost := "api.example.com";
     ReqHeader := {[ "User-Agent"%string := ["curl/8.0"%string] ]};
     ReqContext := [] |}.

(** A request whose remote address has no port. *)
Definition portless : Req string :=
  {| line := request "10.0.0.1";
     URLHost := "api.example.com";
     ReqHeader := ∅;
     ReqContext := [] |}.

(** A request with the given header. *)
Definition with_header (key value : string) : Req string :=
  {| line := request "10.0.0.1:40000";
     URLHost := "api.example.com";
     ReqHeader := {[ key := [value] ]};
     ReqContext := [(LocalAddrContextKey, Addr "127.0.0.1:8080")] |}.

(** A Clerk client that knows one token. *)
Definition verify_one (token : string) : option string :=
  if String.eqb token "tok123" then Some "session-1"%string else None.

(** A writer on which a handler has declared text/html. *)
Definition html_writer : ResponseWriter :=
  HeaderSet "Content-Type" "text/html" fresh.

(** A clock text, and two API functions: one that answers 200 with a
    document and then fails, one that fails at once. *)
Definition stamp (t : Z) : string := "2024-01-15 00:00:00 +0000 UTC".
Definition late_failure : Responses.APIFunc unit unit :=
  λ w _ d, (writeJSON w StatusOK [("status"%string, JString "created")], d,
            Some "late failure"%string).
Definition early_failure : Responses.APIFunc unit unit :=
  λ w _ d, (w, d, Some "bad input"%string).

(** A signer and a parser standing in for the JWT library. *)
Definition sign_stub (c : JWT.RegisteredClaims Z) (key : list byte)
  : string + string :=
  inl "signed"%string.
Definition token_without_sub : JWT.Token :=
  {| JWT.Method := JWT.SigningMethodHMAC "HS256";
     JWT.TokenClaims :=
       JWT.MapClaims {[ "jti"%string := JWT.ClaimString "user123" ]} |}.
Definition parse_stub (s : string) (kf : JWT.Token → list byte + string)
  : JWT.Token + string :=
  inl token_without_sub.
Definition service : JWT.JWT :=
  JWT.NewJsonWebToken "myapp.com" [x73; x65; x63; x72; x65; x74].

(** Stand-ins for the scans, base64, Argon2 and the random source. *)
Definition scan_version (s : string) : Z + string :=
  if String.eqb s "v=19" then inl 19
  else inr "input does not match format"%string.
Definition scan_params (s : string) : (Z * Z * Z) + string :=
  if String.eqb s "m=65536,t=3,p=2" then inl (65536, 3, 2)
  else inr "input does not match format"%string.
Definition encode_stub (b : list byte) : string := string_of_list_byte b.
Definition decode_stub (s : string) : list byte + string :=
  inl (list_byte_of_string s).
Definition key_stub (password salt : list byte) (t m p keyLen : Z)
  : list byte :=
  repeat x6b (Z.to_nat keyLen).
Definition salt_stub : list byte := repeat x73 16.
Definition rand_stub (n : Z) : list byte + string := inl (repeat x73 (Z.to_nat n)).

(** The answers and the final state of a trace, and its first handler. *)
Definition outputs (es : list Event) : list (option Z) :=
  default [] (fst <$> run es boot).
Definition final (es : list Event) : World :=
  default boot (snd <$> run es boot).
Definition first_handler (es : list Event) : Middleware :=
  default RateLimitStrict (handlers (final es) !! 0%nat).

(** Requests of three clients that read one clock value. *)
Definition three_clients : list (string * Clock) :=
  [("10.0.0.1:40000"%string, at_instant Scenario.T);
   ("10.0.0.2:40000"%string, at_instant Scenario.T);
   ("10.0.0.3:40000"%string, at_instant Scenario.T)].

End Examples.

Import Time Http Anvil.

(** * Properties *)

(** ** [time] *)

Lemma Since_gt_5min (now t : Z) :
  (Since now t >? 5 * Minute) = true ↔ now - t > 5 * Minute.
Proof.
  unfold Since, Sub, maxDuration, minDuration, Minute, Second, Nanosecond.
  repeat case_match; lia.
Qed.

Lemma idle_spec (now : Z) (c : client) :
  idle now c = bool_decide (now - lastSeen c > 5 * Minute).
Proof.
  unfold idle. destruct (Since now (lastSeen c) >? 5 * Minute) eqn:E.
  - symmetry. apply bool_decide_eq_true. by apply Since_gt_5min.
  - symmetry. apply bool_decide_eq_false. intros H.
    apply Since_gt_5min in H. congruence.
Qed.

(** ** The sweeper *)

(** What a pass over the entries [m] leaves under each key of the map
    [acc] it mutates. *)
Lemma sweep_range_lookup (now : string → Z) (acc m : gmap string client)
      (ip : string) :
  sweep_range now m acc !! ip =
  match m !! ip with
  | Some c => if idle (now ip) c then None else acc !! ip
  | None => acc !! ip
  end.
Proof.
  unfold sweep_range. revert ip.
  induction m as [|k c m Hk Hfold IH] using map_first_key_ind; intros ip.
  - by rewrite map_fold_empty, lookup_empty.
  - rewrite map_fold_insert_first_key by done.
    destruct (decide (k = ip)) as [->|Hne].
    + rewrite lookup_insert_eq.
      destruct (idle (now ip) c).
      * by rewrite lookup_delete_eq.
      * by rewrite IH, Hk.
    + rewrite lookup_insert_ne by done.
      destruct (idle (now k) c).
      * by rewrite lookup_delete_ne, IH.
      * by rewrite IH.
Qed.

Lemma sweep_lookup (now : string → Z) (clients : gmap string client)
      (ip : string) :
  sweep now clients !! ip =
  (c ← clients !! ip;
   if bool_decide (now ip - lastSeen c > 5 * Minute) then None else Some c).
Proof.
  unfold sweep. rewrite sweep_range_lookup.
  destruct (clients !! ip) as [c|] eqn:E; simpl; [|done].
  by rewrite idle_spec.
Qed.

Lemma sweeper_snoc (turns : list Turn) (u : Turn)
      (clients : gmap string client) :
  sweeper (turns ++ [u]) clients = sweep (reads u) (sweeper turns clients).
Proof. unfold sweeper. by rewrite foldl_app. Qed.

(** The registry after any number of turns, from the registry the
    goroutine started on: an entry is still there, as it was, exactly if
    no pass found it idle. *)
Lemma sweeper_lookup (turns : list Turn) :
  ∀ (clients : gmap string client) (ip : string),
    sweeper turns clients !! ip =
    (c ← clients !! ip;
     if bool_decide (Exists (λ u, reads u ip - lastSeen c > 5 * Minute) turns)
     then None else Some c).
Proof.
  induction turns as [|u turns IH]; intros clients ip.
  - cbn [sweeper foldl].
    destruct (clients !! ip) as [c|]; cbn [mbind option_bind]; [|done].
    rewrite bool_decide_eq_false_2; [done|]. by intros ?%Exists_nil.
  - change (sweeper (u :: turns) clients)
      with (sweeper turns (sweep (reads u) clients)).
    rewrite IH, sweep_lookup.
    destruct (clients !! ip) as [c|]; cbn [mbind option_bind]; [|done].
    destruct (decide (reads u ip - lastSeen c > 5 * Minute)) as [Hidle|Hlive].
    + rewrite (bool_decide_eq_true_2 _ Hidle). cbn [mbind option_bind].
      rewrite bool_decide_eq_true_2; [done|]. by apply Exists_cons_hd.
    + rewrite (bool_decide_eq_false_2 _ Hlive). cbn [mbind option_bind].
      destruct (decide (Exists (λ u0, reads u0 ip - lastSeen c > 5 * Minute)
                               turns)) as [Hex|Hnex].
      * rewrite (bool_decide_eq_true_2 _ Hex).
        rewrite bool_decide_eq_true_2; [done|]. by apply Exists_cons_tl.
      * rewrite (bool_decide_eq_false_2 _ Hnex).
        rewrite bool_decide_eq_false_2; [done|].
        by intros [?|?]%Exists_cons.
Qed.

(** A turn does not begin before the one before it has released the
    lock and a minute has passed: the [k]-th pass (from 0) wakes no
    earlier than [k + 1] minutes after the goroutine entered its loop. *)
Lemma scheduled_woke (turns : list Turn) :
  ∀ (t : Z) (k : nat) (u : Turn),
    scheduled t turns → turns !! k = Some u →
    t + (Z.of_nat k + 1) * Minute ≤ woke u.
Proof.
  induction turns as [|u0 turns IH]; intros t k u Hs Hk; [done|].
  destruct Hs as (Hsleep & Hreads & Hrest). unfold Sleep in Hsleep.
  destruct k as [|k].
  - injection Hk as <-. unfold Minute, Second, Nanosecond in *. lia.
  - specialize (IH (released u0) k u Hrest Hk).
    specialize (Hreads EmptyString).
    unfold Minute, Second, Nanosecond in *. lia.
Qed.

Lemma scheduled_next (turns : list Turn) :
  ∀ (t : Z) (k : nat) (u u' : Turn),
    scheduled t turns → turns !! k = Some u → turns !! S k = Some u' →
    released u + Minute ≤ woke u'.
Proof.
  induction turns as [|u0 turns IH]; intros t k u u' Hs Hk Hk'; [done|].
  destruct Hs as (Hsleep & Hreads & Hrest).
  destruct k as [|k].
  - injection Hk as <-. destruct turns as [|u1 turns]; [done|].
    injection Hk' as <-. by destruct Hrest as (Hsleep' & _).
  - by apply (IH (released u0) k u u' Hrest).
Qed.

(** The readings a scheduled turn takes lie between its waking and its
    release. *)
Lemma scheduled_reads (turns : list Turn) :
  ∀ (t : Z) (k : nat) (u : Turn) (ip : string),
    scheduled t turns → turns !! k = Some u →
    woke u ≤ reads u ip ≤ released u.
Proof.
  induction turns as [|u0 turns IH]; intros t k u ip Hs Hk; [done|].
  destruct Hs as (Hsleep & Hreads & Hrest).
  destruct k as [|k].
  - injection Hk as <-. apply Hreads.
  - by apply (IH (released u0) k u ip Hrest).
Qed.

(** Any number of turns can be scheduled: the loop has no exit. *)
Lemma scheduled_any_length (t : Z) (n : nat) :
  ∃ turns, length turns = n ∧ scheduled t turns.
Proof.
  revert t. induction n as [|n IH]; intros t; [by exists []|].
  destruct (IH (t + Minute)) as (turns & Hlen & Hs).
  exists ({| woke := t + Minute; reads := λ _, t + Minute;
             released := t + Minute |} :: turns).
  split; [simpl; by rewrite Hlen|].
  cbn [scheduled woke reads released]. unfold Sleep.
  split_and!; [lia|intros _; lia|done].
Qed.

Lemma scheduled_extends (turns : list Turn) :
  ∀ (t : Z) (n : nat),
    scheduled t turns →
    ∃ more, length more = n ∧ scheduled t (turns ++ more).
Proof.
  induction turns as [|u turns IH]; intros t n Hs.
  - apply scheduled_any_length.
  - destruct Hs as (Hsleep & Hreads & Hrest).
    destruct (IH (released u) n Hrest) as (more & Hlen & Hs').
    exists more. split; [done|]. by split_and!.
Qed.

(** C8: the sweeper goroutine, started at [began] on a registry that only
    it changes, takes turns for as long as the process lives (a schedule
    of any length exists). Every turn sleeps a minute first, so the pass
    of turn [k] wakes no earlier than [k + 1] minutes after [began] and
    reads the clock at least a minute after every reading of the pass
    before it: there is never more than one pass in a minute. The pass of
    turn [k] removes from the registry the earlier turns left exactly the
    entries whose [lastSeen] is more than five minutes before the clock
    reading taken at that entry, and keeps every other entry as it was;
    before any turn the registry is the one the goroutine started on, so
    after the turns an entry of the starting registry is still there,
    unchanged, exactly if no pass found it idle, and no entry has
    appeared. In the process, where requests come between the passes, a
    pass of handler [i] does the same to the registry it finds and
    touches neither a limiter nor another handler. *)
Theorem C8_sweep_removes_exactly_idle
        (began : Z) (turns : list Turn) (cs : gmap string client) :
  scheduled began turns →
  sweeper [] cs = cs
  ∧ (∀ k u, turns !! k = Some u →
       (∀ ip, sweeper (take (S k) turns) cs !! ip =
              (c ← sweeper (take k turns) cs !! ip;
               if bool_decide (reads u ip - lastSeen c > 5 * Minute)
               then None else Some c))
       ∧ began + (Z.of_nat k + 1) * Minute ≤ woke u
       ∧ (∀ ip, woke u ≤ reads u ip)
       ∧ (∀ u', turns !! S k = Some u' →
            ∀ ip ip', reads u ip + Minute ≤ reads u' ip'))
  ∧ (∀ ip, sweeper turns cs !! ip =
           (c ← cs !! ip;
            if bool_decide
                 (Exists (λ u, reads u ip - lastSeen c > 5 * Minute) turns)
            then None else Some c))
  ∧ (∀ n, ∃ more, length more = n ∧ scheduled began (turns ++ more))
  ∧ (∀ w i m now,
       handlers w !! i = Some m →
       ∃ w' m',
         step (Sweep i now) w = Some (None, w')
         ∧ limiters w' = limiters w
         ∧ handlers w' !! i = Some m'
         ∧ rateLimit m' = rateLimit m
         ∧ (∀ ip, clients m' !! ip =
                  (c ← clients m !! ip;
                   if bool_decide (now ip - lastSeen c > 5 * Minute)
                   then None else Some c))
         ∧ ∀ j, i ≠ j → handlers w' !! j = handlers w !! j).
Proof.
  intros Hs. split_and!.
  - done.
  - intros k u Hk. split_and!.
    + intros ip. rewrite (take_S_r turns k u Hk), sweeper_snoc.
      apply sweep_lookup.
    + by apply (scheduled_woke turns began k u).
    + intros ip. by apply (scheduled_reads turns began k u ip).
    + intros u' Hk' ip ip'.
      pose proof (scheduled_next turns began k u u' Hs Hk Hk').
      pose proof (scheduled_reads turns began k u ip Hs Hk).
      pose proof (scheduled_reads turns began (S k) u' ip' Hs Hk'). lia.
  - apply sweeper_lookup.
  - intros n. by apply scheduled_extends.
  - intros w i m now Hm.
    exists {| limiters := limiters w;
              handlers := <[i := {| rateLimit := rateLimit m;
                                    clients := sweep now (clients m) |}]>
                          (handlers w) |},
           {| rateLimit := rateLimit m; clients := sweep now (clients m) |}.
    split_and!.
    + cbn [step]. by rewrite Hm.
    + done.
    + cbn [handlers]. apply list_lookup_insert_eq. by eapply lookup_lt_Some.
    + done.
    + intros ip. apply sweep_lookup.
    + intros j Hne. cbn [handlers]. by apply list_lookup_insert_ne.
Qed.

(** ** The locked region *)

Lemma getOrCreate_lookup (rl : RateLimit) (ip : string)
      (cs : gmap string client) :
  getOrCreate rl ip cs !! ip =
  Some (default {| limiter := rl; lastSeen := Time.zero |} (cs !! ip)).
Proof.
  unfold getOrCreate. destruct (cs !! ip) eqn:E; simpl; [done|].
  by rewrite lookup_insert_eq.
Qed.

Lemma getOrCreate_lookup_ne (rl : RateLimit) (ip ip' : string)
      (cs : gmap string client) :
  ip ≠ ip' → getOrCreate rl ip cs !! ip' = cs !! ip'.
Proof.
  intros Hne. unfold getOrCreate. destruct (cs !! ip); [done|].
  by rewrite lookup_insert_ne.
Qed.

(** The entry of [ip] after lines 238-241: the limiter it had, or the
    middleware's own if it is new, and the clock reading of line 241. *)
Lemma touch_getOrCreate_lookup (rl : RateLimit) (ip : string) (now : Z)
      (cs : gmap string client) :
  touch ip now (getOrCreate rl ip cs) !! ip =
  Some {| limiter := from_option limiter rl (cs !! ip); lastSeen := now |}.
Proof.
  unfold touch. rewrite lookup_alter_eq, getOrCreate_lookup. simpl.
  by destruct (cs !! ip).
Qed.

Lemma touch_getOrCreate_lookup_ne (rl : RateLimit) (ip ip' : string) (now : Z)
      (cs : gmap string client) :
  ip ≠ ip' → touch ip now (getOrCreate rl ip cs) !! ip' = cs !! ip'.
Proof.
  intros Hne. unfold touch.
  by rewrite lookup_alter_ne, getOrCreate_lookup_ne.
Qed.

(** [admission] unfolded: the registry it leaves does not depend on the
    verdict, and the verdict is that of the entry's limiter. *)
Lemma admission_Some (rl : RateLimit) (ip : string) (ts ta : Z)
      (store : gmap loc Rate.Limiter) (cs : gmap string client)
      (ok : bool) (store' : gmap loc Rate.Limiter) (cs' : gmap string client) :
  admission rl ip ts ta store cs = Some (ok, store', cs') ↔
  ∃ lim, store !! from_option limiter rl (cs !! ip) = Some lim ∧
         ok = (Rate.Allow ta lim).1 ∧
         store' = <[from_option limiter rl (cs !! ip) := (Rate.Allow ta lim).2]> store ∧
         cs' = touch ip ts (getOrCreate rl ip cs).
Proof.
  unfold admission, tryAcquire. rewrite touch_getOrCreate_lookup. simpl.
  destruct (store !! from_option limiter rl (cs !! ip)) as [lim|]; simpl.
  - split.
    + intros [= <- <- <-]. by exists lim.
    + intros (lim' & [= <-] & -> & -> & ->). done.
  - split; [done|]. by intros (lim' & [=] & _).
Qed.

(** The locked region returns whenever the limiter it consults is live. *)
Lemma admission_total (rl : RateLimit) (ip : string) (ts ta : Z)
      (store : gmap loc Rate.Limiter) (cs : gmap string client) :
  is_Some (store !! from_option limiter rl (cs !! ip)) →
  is_Some (admission rl ip ts ta store cs).
Proof.
  intros [lim Hlim].
  exists ((Rate.Allow ta lim).1,
          <[from_option limiter rl (cs !! ip) := (Rate.Allow ta lim).2]> store,
          touch ip ts (getOrCreate rl ip cs)).
  apply admission_Some. by exists lim.
Qed.

(** ** The handler *)

Section Handler.

Context {D : Type}.
Variable next : Handler D.
Variable rl : RateLimit.

(** The handler on a request whose address splits, in terms of the
    locked region. *)
Lemma ServeHTTP_split (clk : Clock) (w : ResponseWriter) (r : Request)
      (cs : gmap string client) (σ : gmap loc Rate.Limiter * D)
      (ip port : string) :
  Net.SplitHostPort (RemoteAddr r) = inl (ip, port) →
  ServeHTTP next rl clk w r cs σ =
  match admission rl ip (t_seen clk) (t_allow clk) σ.1 cs with
  | None => None
  | Some (false, store', cs') =>
      Some (Encode (MessageJSON (rejection (t_reject clk)))
                   (WriteHeader StatusTooManyRequests w),
            cs', (store', σ.2))
  | Some (true, store', cs') =>
      Some ((next w r (store', σ.2)).1, cs', (next w r (store', σ.2)).2)
  end.
Proof.
  intros Hsplit. unfold ServeHTTP. rewrite Hsplit.
  destruct (admission _ _ _ _ _ _) as [[[[] store'] cs']|]; [|done..].
  by destruct (next w r (store', σ.2)).
Qed.

(** The handler returns whenever the address does not split, or the
    limiter of the client's entry is live. *)
Lemma ServeHTTP_total (clk : Clock) (w : ResponseWriter) (r : Request)
      (cs : gmap string client) (σ : gmap loc Rate.Limiter * D) :
  (∀ ip port, Net.SplitHostPort (RemoteAddr r) = inl (ip, port) →
              is_Some (σ.1 !! from_option limiter rl (cs !! ip))) →
  is_Some (ServeHTTP next rl clk w r cs σ).
Proof.
  intros Hlive.
  destruct (Net.SplitHostPort (RemoteAddr r)) as [[ip port]|e] eqn:Hsplit.
  - rewrite (ServeHTTP_split _ _ _ _ _ ip port Hsplit).
    destruct (admission_total rl ip (t_seen clk) (t_allow clk) σ.1 cs)
      as [[[ok store'] cs'] ->]; [by eapply Hlive|].
    destruct ok; eauto.
  - unfold ServeHTTP. rewrite Hsplit. eauto.
Qed.

End Handler.

(** C7: a request whose [RemoteAddr] does not split into host and port is
    answered with status 500, which is not the 429 of a rate-limit
    rejection; the downstream handler is not invoked (the answer is the
    same whatever [next] is, and the state [next] acts on is untouched), no
    limiter is consulted, and the registry is left as it was. *)
Theorem C7_unsplittable_address_is_server_error
        {D : Type} (next : Handler D) (rl : RateLimit) (clk : Clock)
        (w : ResponseWriter) (r : Request) (cs : gmap string client)
        (σ : gmap loc Rate.Limiter * D) (e : Net.AddrError) :
  Net.SplitHostPort (RemoteAddr r) = inr e →
  ServeHTTP next rl clk w r cs σ
  = Some (WriteHeader StatusInternalServerError w, cs, σ)
  ∧ (status w = None →
     status (WriteHeader StatusInternalServerError w) = Some 500)
  ∧ StatusInternalServerError ≠ StatusTooManyRequests
  ∧ body (WriteHeader StatusInternalServerError w) = body w.
Proof.
  intros Hsplit. unfold ServeHTTP. rewrite Hsplit.
  repeat split; [|done|].
  - unfold WriteHeader. by intros ->.
  - unfold WriteHeader. by destruct (status w).
Qed.

(** C9: whenever the address of a request splits, the clock reading of
    line 241 is stored as the [lastSeen] of the client's entry, whether the
    request is then admitted or rejected; hence a sweeper pass that reads
    the clock no more than five minutes later keeps the entry, so a client
    that is being rejected is not evicted as idle. *)
Theorem C9_lastSeen_set_on_every_admission_check
        {D : Type} (next : Handler D) (rl : RateLimit) (clk : Clock)
        (w : ResponseWriter) (r : Request) (cs : gmap string client)
        (σ : gmap loc Rate.Limiter * D) (ip port : string) :
  Net.SplitHostPort (RemoteAddr r) = inl (ip, port) →
  is_Some (σ.1 !! from_option limiter rl (cs !! ip)) →
  ∃ ok store' w' σ',
    admission rl ip (t_seen clk) (t_allow clk) σ.1 cs
    = Some (ok, store', touch ip (t_seen clk) (getOrCreate rl ip cs))
    ∧ ServeHTTP next rl clk w r cs σ
      = Some (w', touch ip (t_seen clk) (getOrCreate rl ip cs), σ')
    ∧ (ok = true → (w', σ') = next w r (store', σ.2))
    ∧ (ok = false → status w = None → status w' = Some StatusTooManyRequests)
    ∧ touch ip (t_seen clk) (getOrCreate rl ip cs) !! ip
      = Some {| limiter := from_option limiter rl (cs !! ip);
                lastSeen := t_seen clk |}
    ∧ ∀ now, now ip - t_seen clk ≤ 5 * Minute →
        sweep now (touch ip (t_seen clk) (getOrCreate rl ip cs)) !! ip
        = Some {| limiter := from_option limiter rl (cs !! ip);
                  lastSeen := t_seen clk |}.
Proof.
  intros Hsplit Hlive.
  destruct (admission_total rl ip (t_seen clk) (t_allow clk) σ.1 cs Hlive)
    as [[[ok store'] cs'] Hadmit].
  pose proof Hadmit as (lim & _ & _ & _ & ->)%admission_Some.
  rewrite (ServeHTTP_split next rl clk w r cs σ ip port Hsplit), Hadmit.
  destruct ok.
  - exists true, store', (next w r (store', σ.2)).1, (next w r (store', σ.2)).2.
    split_and!; [done|done| |done|apply touch_getOrCreate_lookup|].
    { intros _. by destruct (next w r (store', σ.2)). }
    intros now Hnow. rewrite sweep_lookup, touch_getOrCreate_lookup. simpl.
    rewrite bool_decide_eq_false_2; [done|lia].
  - eexists false, store', _, _.
    split_and!; [done|done|done| |apply touch_getOrCreate_lookup|].
    + intros _ Hw. unfold Encode, Write, WriteHeader. rewrite Hw. simpl. done.
    + intros now Hnow. rewrite sweep_lookup, touch_getOrCreate_lookup. simpl.
      rewrite bool_decide_eq_false_2; [done|lia].
Qed.


(** Neither [WriteHeader] nor [Write] touches the header map, and
    [WriteHeader] leaves the body alone. *)
Lemma header_WriteHeader (code : Z) (w : ResponseWriter) :
  header (WriteHeader code w) = header w.
Proof.
  unfold WriteHeader. destruct (status w); [done|].
  by destruct (negb (checkWriteHeaderCode code) || informational code).
Qed.

Lemma body_WriteHeader (code : Z) (w : ResponseWriter) :
  body (WriteHeader code w) = body w.
Proof.
  unfold WriteHeader. destruct (status w); [done|].
  by destruct (negb (checkWriteHeaderCode code) || informational code).
Qed.

Lemma header_Write (c : Chunk) (w : ResponseWriter) :
  header (Write c w) = header w.
Proof.
  unfold Write.
  destruct (emptyChunk c
            || negb (bodyAllowedForStatus
                       (default StatusOK (status (WriteHeader StatusOK w)))));
    simpl; apply header_WriteHeader.
Qed.

(** The status codes the package passes as constants (200, 400, 401,
    429 and 500) never make [WriteHeader] panic; each is recorded when no
    header is written, and each allows a body. *)
Lemma package_codes_are_recorded (code : Z) (w : ResponseWriter) :
  code ∈ [StatusOK; Web.StatusBadRequest; Web.StatusUnauthorized;
          StatusTooManyRequests; StatusInternalServerError] →
  WriteHeader_panics code w = false
  ∧ informational code = false
  ∧ bodyAllowedForStatus code = true
  ∧ (status w = None → status (WriteHeader code w) = Some code).
Proof.
  intros Hcode. unfold WriteHeader_panics, WriteHeader.
  repeat (apply elem_of_cons in Hcode as [->|Hcode]);
    [..|by apply elem_of_nil in Hcode];
    (split_and!; [by destruct (status w)|done|done|by intros ->]).
Qed.

(** The status once a header counts as written: a later [WriteHeader] or
    [Write] leaves it. *)
Lemma status_WriteHeader_written (code s : Z) (w : ResponseWriter) :
  status w = Some s → WriteHeader code w = w.
Proof. unfold WriteHeader. by intros ->. Qed.

(** A code that passes [checkWriteHeaderCode] and is not informational is
    recorded on a writer with no header written. *)
Lemma WriteHeader_records (code : Z) (w : ResponseWriter) :
  status w = None →
  checkWriteHeaderCode code = true → informational code = false →
  WriteHeader code w
  = {| header := header w; status := Some code; body := body w |}.
Proof. unfold WriteHeader. by intros -> -> ->. Qed.

(** What [Write] does once a status is recorded. *)
Lemma Write_written (c : Chunk) (s : Z) (w : ResponseWriter) :
  status w = Some s →
  Write c w
  = if emptyChunk c || negb (bodyAllowedForStatus s) then w
    else {| header := header w; status := Some s; body := body w ++ [c] |}.
Proof.
  intros Hs. unfold Write. rewrite (status_WriteHeader_written _ s w Hs), Hs.
  done.
Qed.

(** The response of a rejection, on any writer: the header map is the one
    the handler was given, and on a writer not yet written to the status
    is 429 and the body gains the one document of the message. *)
Lemma rejection_response (w : ResponseWriter) (now : Z) :
  header (Encode (MessageJSON (rejection now))
                 (WriteHeader StatusTooManyRequests w)) = header w
  ∧ (status w = None →
     status (Encode (MessageJSON (rejection now))
                    (WriteHeader StatusTooManyRequests w))
     = Some StatusTooManyRequests
     ∧ body (Encode (MessageJSON (rejection now))
                    (WriteHeader StatusTooManyRequests w))
       = body w ++ [Doc (MessageJSON (rejection now))]).
Proof.
  split.
  - unfold Encode. by rewrite header_Write, header_WriteHeader.
  - intros Hw. unfold Encode, Write, WriteHeader. rewrite Hw. simpl. done.
Qed.

(** ** The process: every entry aliases the limiter of its preset *)

Lemma preset_limiter_live (p : Preset) :
  rateLimit (constructor p) ∈ dom package_init.
Proof. apply elem_of_dom. destruct p; vm_compute; eauto. Qed.

Lemma aliased_admission (m : Middleware) (ip : string) (ts : Z) :
  aliased m →
  aliased {| rateLimit := rateLimit m;
             clients := touch ip ts (getOrCreate (rateLimit m) ip (clients m)) |}.
Proof.
  unfold aliased. simpl. intros Hm ip' c Hc.
  destruct (decide (ip = ip')) as [<-|Hne].
  - rewrite touch_getOrCreate_lookup in Hc. injection Hc as <-. simpl.
    destruct (clients m !! ip) as [c0|] eqn:E; simpl; [|done].
    by apply (Hm ip c0).
  - rewrite touch_getOrCreate_lookup_ne in Hc by done. by apply (Hm ip' c).
Qed.

Lemma aliased_sweep (m : Middleware) (now : string → Z) :
  aliased m →
  aliased {| rateLimit := rateLimit m; clients := sweep now (clients m) |}.
Proof.
  unfold aliased. simpl. intros Hm ip c Hc.
  rewrite sweep_lookup in Hc.
  destruct (clients m !! ip) as [c0|] eqn:E; simpl in Hc; [|done].
  case_bool_decide; [done|]. injection Hc as <-. by apply (Hm ip c0).
Qed.

(** In a handler whose entries alias its limiter, the limiter consulted
    for any address is the handler's own. *)
Lemma aliased_limiter (m : Middleware) (ip : string) :
  aliased m → from_option limiter (rateLimit m) (clients m !! ip) = rateLimit m.
Proof.
  intros Hm. destruct (clients m !! ip) as [c|] eqn:E; simpl; [|done].
  by apply (Hm ip c).
Qed.

(** What a request does to the process, in terms of the locked region. *)
Lemma step_Serve (i : nat) (addr : string) (clk : Clock) (w : World)
      (o : option Z) (w' : World) :
  step (Serve i addr clk) w = Some (o, w') →
  ∃ m, handlers w !! i = Some m ∧
    match Net.SplitHostPort addr with
    | inr _ =>
        o = Some StatusInternalServerError ∧ limiters w' = limiters w ∧
        handlers w' = <[i := m]> (handlers w)
    | inl (ip, _) =>
        ∃ ok store' cs',
          admission (rateLimit m) ip (t_seen clk) (t_allow clk) (limiters w)
                (clients m) = Some (ok, store', cs') ∧
          o = Some (if ok then StatusOK else StatusTooManyRequests) ∧
          limiters w' = store' ∧
          handlers w' = <[i := {| rateLimit := rateLimit m; clients := cs' |}]>
                        (handlers w)
    end.
Proof.
  simpl. intros Hstep.
  destruct (handlers w !! i) as [m|] eqn:Hm; simpl in Hstep; [|done].
  exists m. split; [done|].
  unfold ServeHTTP in Hstep. simpl in Hstep.
  destruct (Net.SplitHostPort addr) as [[ip port]|e]; simpl in Hstep.
  - destruct (admission _ _ _ _ _ _) as [[[ok store'] cs']|]; [|by destruct m].
    exists ok, store', cs'. split; [done|].
    destruct ok; simpl in Hstep; by injection Hstep as <- <-.
  - injection Hstep as <- <-. by destruct m.
Qed.

Lemma step_consistent (ps : list Preset) (e : Event) (w : World)
      (o : option Z) (w' : World) :
  consistent ps w → step e w = Some (o, w') →
  consistent (ps ++ built [e]) w'.
Proof.
  intros [Hdom Hall] Hstep. destruct e as [p|i addr clk|i now].
  - injection Hstep as <- <-. split; [done|]. simpl.
    apply Forall2_app; [done|]. constructor; [|constructor].
    split; [done|]. unfold aliased. destruct p; apply map_Forall_empty.
  - apply step_Serve in Hstep as (m & Hm & Hstep).
    simpl. rewrite app_nil_r.
    destruct (Forall2_lookup_r _ _ _ _ _ Hall Hm) as (p & Hp & Hpm).
    rewrite <- (list_insert_id ps i p Hp).
    destruct (Net.SplitHostPort addr) as [[ip port]|err].
    + destruct Hstep as (ok & store' & cs' & Hadmit & _ & Hl & Hh).
      apply admission_Some in Hadmit as (lim & Hlim & _ & -> & ->).
      split.
      * rewrite Hl, dom_insert_L, <- Hdom.
        apply elem_of_dom_2 in Hlim.
        apply subseteq_union_1_L. by apply singleton_subseteq_l.
      * rewrite Hh. apply Forall2_insert; [done|].
        destruct Hpm as [Hrl Hal]. split; [done|]. by apply aliased_admission.
    + destruct Hstep as (_ & Hl & Hh). split; [by rewrite Hl|].
      rewrite Hh. by apply Forall2_insert.
  - simpl in Hstep.
    destruct (handlers w !! i) as [m|] eqn:Hm; simpl in Hstep; [|done].
    injection Hstep as <- <-. simpl. rewrite app_nil_r.
    destruct (Forall2_lookup_r _ _ _ _ _ Hall Hm) as (p & Hp & Hpm).
    rewrite <- (list_insert_id ps i p Hp). split; [done|].
    apply Forall2_insert; [done|].
    destruct Hpm as [Hrl Hal]. split; [done|]. by apply aliased_sweep.
Qed.

Lemma built_cons (e : Event) (es : list Event) :
  built (e :: es) = built [e] ++ built es.
Proof. unfold built. simpl. by destruct e. Qed.

Lemma run_consistent (es : list Event) :
  ∀ (ps : list Preset) (w : World) (os : list (option Z)) (w' : World),
    consistent ps w → run es w = Some (os, w') →
    consistent (ps ++ built es) w'.
Proof.
  induction es as [|e es IH]; intros ps w os w' Hc Hrun; simpl in Hrun.
  - injection Hrun as <- <-. unfold built. simpl. by rewrite app_nil_r.
  - destruct (step e w) as [[o w1]|] eqn:Hstep; simpl in Hrun; [|done].
    destruct (run es w1) as [[os1 w2]|] eqn:Hrest; simpl in Hrun; [|done].
    injection Hrun as <- <-.
    rewrite built_cons, app_assoc.
    eapply IH; [|done]. by eapply step_consistent.
Qed.

Lemma boot_consistent : consistent [] boot.
Proof. split; [done|]. constructor. Qed.

(** A request to a handler that was built never panics. *)
Lemma step_Serve_total (ps : list Preset) (w : World) (i : nat)
      (addr : string) (clk : Clock) :
  consistent ps w → (i < length (handlers w))%nat →
  is_Some (step (Serve i addr clk) w).
Proof.
  intros [Hdom Hall] Hi.
  destruct (lookup_lt_is_Some_2 _ _ Hi) as [m Hm].
  destruct (Forall2_lookup_r _ _ _ _ _ Hall Hm) as (p & Hp & Hrl & Hal).
  simpl. rewrite Hm. simpl.
  destruct (ServeHTTP_total ok_handler (rateLimit m) clk fresh (request addr)
                            (clients m) (limiters w, ())) as [[[rw cs'] σ'] ->].
  - intros ip port _. simpl. rewrite aliased_limiter by done.
    apply elem_of_dom. rewrite Hdom, Hrl. apply preset_limiter_live.
  - simpl. eauto.
Qed.

(** A request served by handler [i] refills and debits the limiter of
    every handler built with the same limiter, and touches the registry of
    no other handler. *)
Lemma step_Serve_shared (w : World) (i j : nat) (mi mj : Middleware)
      (addr ip port : string) (clk : Clock) (o : option Z) (w' : World) :
  handlers w !! i = Some mi → handlers w !! j = Some mj →
  aliased mi → rateLimit mi = rateLimit mj →
  Net.SplitHostPort addr = inl (ip, port) →
  step (Serve i addr clk) w = Some (o, w') →
  (∃ lim, limiters w !! rateLimit mj = Some lim ∧
          limiters w' !! rateLimit mj = Some (Rate.Allow (t_allow clk) lim).2 ∧
          o = Some (if (Rate.Allow (t_allow clk) lim).1
                    then StatusOK else StatusTooManyRequests))
  ∧ (i ≠ j → handlers w' !! j = Some mj).
Proof.
  intros Hmi Hmj Hal Hrl Hsplit Hstep.
  apply step_Serve in Hstep as (m & Hm & Hstep).
  rewrite Hmi in Hm. injection Hm as <-. rewrite Hsplit in Hstep.
  destruct Hstep as (ok & store' & cs' & Hadmit & -> & Hl & Hh).
  apply admission_Some in Hadmit as (lim & Hlim & -> & -> & ->).
  rewrite aliased_limiter in Hlim, Hl by done. split.
  - exists lim. rewrite <- Hrl, Hl, lookup_insert_eq. done.
  - intros Hne. by rewrite Hh, list_lookup_insert_ne.
Qed.

(** C4: [rateLimiterMiddleware] captures the limiter it is given and an
    empty registry, and the locked region of a handler built with any
    limiter [rl] allocates none: it leaves the store with the limiters it
    had, gives a newly seen address an entry that holds [rl] itself, and
    leaves the limiter of an entry that was there. Hence in every state
    the process reaches from package initialisation, by any sequence of
    constructor calls, requests and sweeper passes, the limiters are the
    four of the package, which are four different ones; the handler built
    by [RateLimitPublic], [RateLimitInternal], [RateLimitWeb] or
    [RateLimitStrict] captures [RateLimitPublicAPI],
    [RateLimitInternalAPI], [RateLimitUserWebAPI] or [RateLimitStrictAPI]
    respectively, and every entry of its registry holds that limiter; so
    two handlers built by the same constructor consult one limiter, and a
    request served by one of them updates the token state the other
    consults, while leaving the other's registry alone (a sweeper pass of
    one handler likewise touches no other). *)
Theorem C4_every_entry_holds_the_preset_limiter
        (es : list Event) (os : list (option Z)) (w : World) :
  run es boot = Some (os, w) →
  (∀ rl, rateLimit (rateLimiterMiddleware rl) = rl
         ∧ clients (rateLimiterMiddleware rl) = ∅)
  ∧ (∀ rl ip ts ta store cs ok store' cs',
       admission rl ip ts ta store cs = Some (ok, store', cs') →
       dom store' = dom store
       ∧ cs' !! ip
         = Some {| limiter := match cs !! ip with
                              | Some c => limiter c
                              | None => rl
                              end;
                   lastSeen := ts |}
       ∧ ∀ ip', ip ≠ ip' → cs' !! ip' = cs !! ip')
  ∧ NoDup [RateLimitPublicAPI; RateLimitInternalAPI; RateLimitUserWebAPI;
           RateLimitStrictAPI]
  ∧ (∀ l, l ∈ dom (limiters w) ↔
          l ∈ [RateLimitPublicAPI; RateLimitInternalAPI; RateLimitUserWebAPI;
               RateLimitStrictAPI])
  ∧ dom (limiters w) = dom package_init
  ∧ length (handlers w) = length (built es)
  ∧ (∀ i m, handlers w !! i = Some m →
       (∃ p, built es !! i = Some p
             ∧ rateLimit m = rateLimit (constructor p)
             ∧ rateLimit m = match p with
                             | Public => RateLimitPublicAPI
                             | Internal => RateLimitInternalAPI
                             | Web => RateLimitUserWebAPI
                             | Strict => RateLimitStrictAPI
                             end)
       ∧ ∀ ip c, clients m !! ip = Some c → limiter c = rateLimit m)
  ∧ (∀ i j p mi mj,
       built es !! i = Some p → built es !! j = Some p →
       handlers w !! i = Some mi → handlers w !! j = Some mj →
       rateLimit mi = rateLimit mj
       ∧ ∀ addr ip port clk o w',
           Net.SplitHostPort addr = inl (ip, port) →
           step (Serve i addr clk) w = Some (o, w') →
           (∃ lim, limiters w !! rateLimit mj = Some lim ∧
                   limiters w' !! rateLimit mj
                   = Some (Rate.Allow (t_allow clk) lim).2)
           ∧ (i ≠ j → handlers w' !! j = Some mj))
  ∧ (∀ i j now o w',
       i ≠ j → step (Sweep i now) w = Some (o, w') →
       limiters w' = limiters w ∧ handlers w' !! j = handlers w !! j).
Proof.
  intros Hrun.
  pose proof (run_consistent es [] boot os w boot_consistent Hrun)
    as [Hdom Hall].
  simpl in Hall. split_and!.
  - done.
  - intros rl ip ts ta store cs ok store' cs'
           (lim & Hlim & _ & -> & ->)%admission_Some.
    split_and!.
    + rewrite dom_insert_L. apply elem_of_dom_2 in Hlim.
      apply subseteq_union_1_L. by apply singleton_subseteq_l.
    + rewrite touch_getOrCreate_lookup. by destruct (cs !! ip).
    + intros ip' Hne. by apply touch_getOrCreate_lookup_ne.
  - apply (bool_decide_unpack _). vm_compute. exact I.
  - intros l. rewrite Hdom. unfold package_init.
    rewrite !dom_insert_L, dom_empty_L, !elem_of_union, !elem_of_singleton,
      !elem_of_cons, elem_of_empty, elem_of_nil. tauto.
  - done.
  - symmetry. by eapply Forall2_length.
  - intros i m Hm.
    destruct (Forall2_lookup_r _ _ _ _ _ Hall Hm) as (p & Hp & Hrl & Hal).
    split; [|intros ip c Hc; by apply (Hal ip c)].
    exists p. split_and!; [done|done|]. rewrite Hrl. by destruct p.
  - intros i j p mi mj Hpi Hpj Hmi Hmj.
    destruct (Forall2_lookup_lr _ _ _ _ _ _ Hall Hpi Hmi) as [Hrli Hali].
    destruct (Forall2_lookup_lr _ _ _ _ _ _ Hall Hpj Hmj) as [Hrlj Halj].
    assert (rateLimit mi = rateLimit mj) as Hrl by congruence.
    split; [done|]. intros addr ip port clk o w' Hsplit Hstep.
    destruct (step_Serve_shared w i j mi mj addr ip port clk o w'
                Hmi Hmj Hali Hrl Hsplit Hstep) as [(lim & H1 & H2 & _) H3].
    split; [by exists lim|done].
  - intros i j now o w' Hne Hstep. simpl in Hstep.
    destruct (handlers w !! i) as [m|]; simpl in Hstep; [|done].
    injection Hstep as <- <-. simpl. split; [done|].
    by rewrite list_lookup_insert_ne.
Qed.

(** ** The token bucket at one instant *)

Lemma Allow_settled (now : Z) (lim : Rate.Limiter) :
  Rate.settled now (Rate.Allow now lim).2
  ∧ Rate.burst (Rate.Allow now lim).2 = Rate.burst lim
  ∧ Rate.tokens (Rate.Allow now lim).2
    = Rate.refill now lim - (if (Rate.Allow now lim).1 then Second else 0).
Proof.
  unfold Rate.settled, Rate.Allow.
  assert (Rate.refill now lim ≤ Rate.burst lim * Second)
    by (unfold Rate.refill; lia).
  assert (0 < Second) by (unfold Second, Nanosecond; lia).
  destruct (Second <=? Rate.refill now lim) eqn:E; simpl; lia.
Qed.

Lemma refill_settled (now : Z) (lim : Rate.Limiter) :
  Rate.settled now lim → Rate.refill now lim = Rate.tokens lim.
Proof. unfold Rate.settled, Rate.refill. intros [-> Hle]. lia. Qed.

Lemma Allow_verdict (now : Z) (lim : Rate.Limiter) :
  (Rate.Allow now lim).1 = bool_decide (Second ≤ Rate.refill now lim).
Proof.
  unfold Rate.Allow.
  destruct (Second <=? Rate.refill now lim) eqn:E; simpl; symmetry.
  - apply bool_decide_eq_true. lia.
  - apply bool_decide_eq_false. lia.
Qed.

(** Calls at the instant of the last refill admit no more requests than
    there are whole tokens. *)
Lemma Allow_repeat_settled_bound (now : Z) (n : nat) :
  ∀ lim, Rate.settled now lim →
    Z.of_nat (length (filter (λ b, b = true) (Rate.Allow_repeat now n lim).1))
    * Second ≤ Z.max 0 (Rate.tokens lim).
Proof.
  assert (0 < Second) as HS by (unfold Second, Nanosecond; lia).
  induction n as [|n IH]; intros lim Hs; simpl; [lia|].
  destruct (Allow_settled now lim) as (Hs' & _ & Htok).
  specialize (IH _ Hs'). rewrite Htok, (refill_settled _ _ Hs) in IH.
  rewrite filter_cons. rewrite Allow_verdict, (refill_settled _ _ Hs) in *.
  case_bool_decide as Hdec; case_decide; simpl; try done; lia.
Qed.

(** Any number of calls of [Allow] that read one clock value admit at most
    [burst] of them. *)
Lemma Allow_repeat_bound (now : Z) (n : nat) (lim : Rate.Limiter) :
  0 ≤ Rate.burst lim →
  (length (filter (λ b, b = true) (Rate.Allow_repeat now n lim).1)
   ≤ Z.to_nat (Rate.burst lim))%nat.
Proof.
  assert (0 < Second) as HS by (unfold Second, Nanosecond; lia).
  intros Hb. destruct n as [|n]; simpl; [lia|].
  destruct (Allow_settled now lim) as (Hs' & _ & Htok).
  pose proof (Allow_repeat_settled_bound now n _ Hs') as Hn.
  rewrite Htok in Hn.
  assert (Rate.refill now lim ≤ Rate.burst lim * Second)
    by (unfold Rate.refill; lia).
  rewrite filter_cons. rewrite Allow_verdict in *.
  case_bool_decide as Hdec; case_decide; simpl; try done; nia.
Qed.

(** From a bucket holding exactly [k] tokens at the instant of its last
    refill, the first [k] calls at that instant are granted and every later
    one is refused. *)
Lemma Allow_repeat_settled_exact (now : Z) (n : nat) :
  ∀ (k : nat) (lim : Rate.Limiter),
    Rate.settled now lim → Rate.tokens lim = Z.of_nat k * Second →
    (Rate.Allow_repeat now n lim).1
    = replicate (n `min` k) true ++ replicate (n - k) false.
Proof.
  assert (0 < Second) as HS by (unfold Second, Nanosecond; lia).
  induction n as [|n IH]; intros k lim Hs Hk; simpl; [done|].
  destruct (Allow_settled now lim) as (Hs' & _ & Htok).
  rewrite (refill_settled _ _ Hs) in Htok.
  rewrite Allow_verdict, (refill_settled _ _ Hs) in *.
  destruct k as [|k].
  - rewrite bool_decide_eq_false_2 in * by lia.
    rewrite (IH 0%nat) by (done || lia).
    by rewrite Nat.min_0_r, Nat.sub_0_r.
  - rewrite bool_decide_eq_true_2 in * by lia.
    rewrite (IH k) by (done || lia). done.
Qed.

(** A bucket that is full once refilled at [now] grants exactly its first
    [burst] calls at [now]. *)
Lemma Allow_repeat_full (now : Z) (n k : nat) (lim : Rate.Limiter) :
  Rate.burst lim = Z.of_nat k →
  Rate.refill now lim = Rate.burst lim * Second →
  (Rate.Allow_repeat now n lim).1
  = replicate (n `min` k) true ++ replicate (n - k) false.
Proof.
  assert (0 < Second) as HS by (unfold Second, Nanosecond; lia).
  intros Hk Hfull. destruct n as [|n]; simpl; [done|].
  destruct (Allow_settled now lim) as (Hs' & _ & Htok).
  rewrite Allow_verdict in *. rewrite Hfull, Hk in *.
  destruct k as [|k].
  - rewrite bool_decide_eq_false_2 in * by lia.
    rewrite (Allow_repeat_settled_exact now n 0 _ Hs') by lia.
    by rewrite Nat.min_0_r, Nat.sub_0_r.
  - rewrite bool_decide_eq_true_2 in * by lia.
    rewrite (Allow_repeat_settled_exact now n k _ Hs') by lia. done.
Qed.

(** ** Runs of requests that read one clock value *)

Lemma step_Serve_eq (i : nat) (addr ip : string) (clk : Clock)
      (store : gmap loc Rate.Limiter) (hs : list Middleware)
      (m : Middleware) (lim : Rate.Limiter) :
  hs !! i = Some m → aliased m → store !! rateLimit m = Some lim →
  identity addr = Some ip →
  step (Serve i addr clk) {| limiters := store; handlers := hs |}
  = Some (status_of (Rate.Allow (t_allow clk) lim).1,
          {| limiters := <[rateLimit m := (Rate.Allow (t_allow clk) lim).2]> store;
             handlers :=
               <[i := {| rateLimit := rateLimit m;
                         clients := touch ip (t_seen clk)
                                      (getOrCreate (rateLimit m) ip (clients m)) |}]>
               hs |}).
Proof.
  intros Hm Hal Hlim Hid. unfold identity in Hid.
  destruct (Net.SplitHostPort addr) as [[ip' port]|e] eqn:Hsplit; [|done].
  injection Hid as ->. simpl. rewrite Hm. simpl.
  rewrite (ServeHTTP_split ok_handler (rateLimit m) clk fresh (request addr)
                           (clients m) (store, ()) ip port Hsplit).
  simpl.
  assert (admission (rateLimit m) ip (t_seen clk) (t_allow clk) store (clients m)
          = Some ((Rate.Allow (t_allow clk) lim).1,
                  <[rateLimit m := (Rate.Allow (t_allow clk) lim).2]> store,
                  touch ip (t_seen clk)
                        (getOrCreate (rateLimit m) ip (clients m)))) as ->.
  { apply admission_Some. exists lim. by rewrite aliased_limiter. }
  by destruct (Rate.Allow (t_allow clk) lim).1.
Qed.

(** A run of requests to one handler, all with addresses that split and
    all reading the clock value [T] inside [Allow]: the answers are those
    of the handler's limiter called that many times at [T], whatever the
    identities are, and no other handler is touched. *)
Lemma run_requests (i : nat) (T : Z) (reqs : list (string * Clock)) :
  ∀ (store : gmap loc Rate.Limiter) (hs : list Middleware)
    (m : Middleware) (lim : Rate.Limiter),
    hs !! i = Some m → aliased m → store !! rateLimit m = Some lim →
    Forall (λ r, is_Some (identity r.1) ∧ t_allow r.2 = T) reqs →
    run (requests_to i reqs) {| limiters := store; handlers := hs |}
    = Some (status_of <$> (Rate.Allow_repeat T (length reqs) lim).1,
            {| limiters :=
                 <[rateLimit m := (Rate.Allow_repeat T (length reqs) lim).2]> store;
               handlers :=
                 <[i := {| rateLimit := rateLimit m;
                           clients := registry_after (rateLimit m) reqs (clients m) |}]>
                 hs |}).
Proof.
  induction reqs as [|[addr clk] reqs IH]; intros store hs m lim Hm Hal Hlim Hall.
  - simpl. rewrite insert_id by done.
    rewrite list_insert_id; [done|]. by destruct m.
  - apply Forall_cons in Hall as [[[ip Hid] HT] Hall]. simpl in Hid, HT.
    cbn [requests_to fmap list_fmap run length Rate.Allow_repeat fst snd].
    rewrite (step_Serve_eq i addr ip clk store hs m lim Hm Hal Hlim Hid).
    cbn [mbind option_bind]. rewrite HT.
    set (m' := {| rateLimit := rateLimit m;
                  clients := touch ip (t_seen clk)
                               (getOrCreate (rateLimit m) ip (clients m)) |}).
    fold (requests_to i reqs).
    rewrite (IH _ _ m' (Rate.Allow T lim).2).
    + cbn [mbind option_bind fmap list_fmap fst snd]. simpl rateLimit.
      rewrite insert_insert_eq, list_insert_insert_eq.
      unfold registry_after at 2. simpl foldl. rewrite Hid. done.
    + apply list_lookup_insert_eq. by eapply lookup_lt_Some.
    + by apply aliased_admission.
    + simpl. apply lookup_insert_eq.
    + done.
Qed.

Lemma admitted_status_of (bs : list bool) :
  admitted (status_of <$> bs) = length (filter (λ b, b = true) bs).
Proof.
  unfold admitted. induction bs as [|b bs IH]; [done|].
  rewrite fmap_cons, !filter_cons.
  destruct b; simpl; repeat case_decide; simpl; try done; by rewrite IH.
Qed.

Lemma dom_touch_getOrCreate (rl : RateLimit) (ip : string) (now : Z)
      (cs : gmap string client) :
  dom (touch ip now (getOrCreate rl ip cs)) = {[ip]} ∪ dom cs.
Proof.
  unfold touch. rewrite dom_alter_L. unfold getOrCreate.
  destruct (cs !! ip) as [c|] eqn:E.
  - apply elem_of_dom_2 in E. symmetry.
    apply subseteq_union_1_L. by apply singleton_subseteq_l.
  - by rewrite dom_insert_L.
Qed.

(** Requests of one identity leave one entry for it, holding the limiter
    it already had or else the handler's, and leave the other entries as
    they were. *)
Lemma registry_after_same_identity (rl : RateLimit) (ip : string)
      (reqs : list (string * Clock)) :
  ∀ cs : gmap string client,
    Forall (λ r, identity r.1 = Some ip) reqs → reqs ≠ [] →
    dom (registry_after rl reqs cs) = {[ip]} ∪ dom cs
    ∧ (limiter <$> registry_after rl reqs cs !! ip
       = Some (from_option limiter rl (cs !! ip)))
    ∧ ∀ ip', ip ≠ ip' → registry_after rl reqs cs !! ip' = cs !! ip'.
Proof.
  induction reqs as [|[addr clk] reqs IH]; intros cs Hall Hne; [done|].
  apply Forall_cons in Hall as [Hid Hall]. simpl in Hid.
  unfold registry_after. simpl foldl. rewrite Hid.
  fold (registry_after rl reqs (touch ip (t_seen clk) (getOrCreate rl ip cs))).
  destruct reqs as [|r reqs].
  - simpl. split_and!.
    + apply dom_touch_getOrCreate.
    + by rewrite touch_getOrCreate_lookup.
    + intros ip' Hip'. by apply touch_getOrCreate_lookup_ne.
  - destruct (IH (touch ip (t_seen clk) (getOrCreate rl ip cs)) Hall)
      as (Hdom & Hlim & Hother); [done|].
    split_and!.
    + rewrite Hdom, dom_touch_getOrCreate.
      by rewrite (assoc_L (∪)), (idemp_L (∪)).
    + by rewrite Hlim, touch_getOrCreate_lookup.
    + intros ip' Hip'. rewrite Hother by done.
      by apply touch_getOrCreate_lookup_ne.
Qed.

(** Any number of requests to one handler that read one clock value inside
    [Allow], with addresses that split, are all answered, and no more of
    them are forwarded than the burst of the handler's limiter. If they
    are first requests of one identity, in whatever order they take the
    lock, the registry gains one entry, for that identity, and this entry
    holds the handler's limiter: the store holds the limiters it held
    before. *)
Lemma same_instant_requests (i : nat) (T : Z) (reqs : list (string * Clock))
      (w : World) (m : Middleware) (lim : Rate.Limiter) :
  handlers w !! i = Some m → aliased m →
  limiters w !! rateLimit m = Some lim → 0 ≤ Rate.burst lim →
  Forall (λ r, is_Some (identity r.1) ∧ t_allow r.2 = T) reqs →
  ∃ os w' m',
    run (requests_to i reqs) w = Some (os, w')
    ∧ length os = length reqs
    ∧ (admitted os ≤ Z.to_nat (Rate.burst lim))%nat
    ∧ dom (limiters w') = dom (limiters w)
    ∧ handlers w' !! i = Some m'
    ∧ rateLimit m' = rateLimit m
    ∧ ∀ ip, Forall (λ r, identity r.1 = Some ip) reqs → reqs ≠ [] →
            clients m !! ip = None →
            dom (clients m') = {[ip]} ∪ dom (clients m)
            ∧ size (clients m') = S (size (clients m))
            ∧ limiter <$> clients m' !! ip = Some (rateLimit m).
Proof.
  intros Hm Hal Hlim Hb Hall. destruct w as [store hs]. simpl in *.
  eexists _, _, _. split; [by apply (run_requests i T reqs store hs m lim)|].
  simpl. split_and!.
  - rewrite length_fmap. clear. revert lim.
    induction reqs as [|r reqs IH]; intros lim; simpl; [done|].
    by rewrite IH.
  - rewrite admitted_status_of. by apply Allow_repeat_bound.
  - rewrite dom_insert_L. apply elem_of_dom_2 in Hlim.
    apply subseteq_union_1_L. by apply singleton_subseteq_l.
  - apply list_lookup_insert_eq. by eapply lookup_lt_Some.
  - done.
  - intros ip Hip Hne Hnone.
    destruct (registry_after_same_identity (rateLimit m) ip reqs (clients m)
                Hip Hne) as (Hdom & Hl & _).
    rewrite Hnone in Hl. simpl in *. split_and!; [done| |done].
    rewrite <- !size_dom, Hdom, size_union, size_singleton; [done|].
    apply disjoint_singleton_l. by apply not_elem_of_dom.
Qed.

(** When the handler's limiter is full once refilled at [T], a run of
    requests at [T] is answered 200 for its first [burst] requests and 429
    from then on. *)
Lemma full_bucket_burst (i : nat) (T : Z) (reqs : list (string * Clock))
      (w : World) (m : Middleware) (lim : Rate.Limiter) (k : nat) :
  handlers w !! i = Some m → aliased m →
  limiters w !! rateLimit m = Some lim →
  Rate.burst lim = Z.of_nat k →
  Rate.refill T lim = Rate.burst lim * Second →
  Forall (λ r, is_Some (identity r.1) ∧ t_allow r.2 = T) reqs →
  fst <$> run (requests_to i reqs) w
  = Some (replicate (length reqs `min` k) (Some StatusOK)
          ++ replicate (length reqs - k) (Some StatusTooManyRequests)).
Proof.
  intros Hm Hal Hlim Hk Hfull Hall. destruct w as [store hs]. simpl in *.
  rewrite (run_requests i T reqs store hs m lim) by done. simpl.
  rewrite (Allow_repeat_full T (length reqs) k lim Hk Hfull).
  by rewrite fmap_app, !fmap_replicate.
Qed.

(** ** The limiters keep their configuration *)

Lemma Allow_burst (now : Z) (lim : Rate.Limiter) :
  Rate.burst (Rate.Allow now lim).2 = Rate.burst lim.
Proof. unfold Rate.Allow. by destruct (Second <=? Rate.refill now lim). Qed.

Lemma boot_configured : configured (limiters boot).
Proof. intros p. destruct p; vm_compute; eauto. Qed.

Lemma step_configured (e : Event) (w : World) (o : option Z) (w' : World) :
  configured (limiters w) → step e w = Some (o, w') →
  configured (limiters w').
Proof.
  intros Hc Hstep. destruct e as [p|i addr clk|i now].
  - by injection Hstep as <- <-.
  - apply step_Serve in Hstep as (m & Hm & Hstep).
    destruct (Net.SplitHostPort addr) as [[ip port]|err].
    + destruct Hstep as (ok & store' & cs' & Hadmit & _ & -> & _).
      apply admission_Some in Hadmit as (lim & Hlim & _ & -> & _).
      intros p. destruct (Hc p) as (lim0 & Hlim0 & Hb).
      destruct (decide (from_option limiter (rateLimit m) (clients m !! ip)
                        = rateLimit (constructor p))) as [Heq|Hne].
      * rewrite Heq in Hlim. rewrite Heq, lookup_insert_eq.
        assert (lim0 = lim) as -> by congruence.
        eexists. split; [done|]. by rewrite Allow_burst.
      * rewrite lookup_insert_ne by done. eauto.
    + destruct Hstep as (_ & -> & _). done.
  - simpl in Hstep.
    destruct (handlers w !! i) as [m|]; simpl in Hstep; [|done].
    by injection Hstep as <- <-.
Qed.

Lemma run_configured (es : list Event) :
  ∀ (w : World) (os : list (option Z)) (w' : World),
    configured (limiters w) → run es w = Some (os, w') →
    configured (limiters w').
Proof.
  induction es as [|e es IH]; intros w os w' Hc Hrun; simpl in Hrun.
  - by injection Hrun as <- <-.
  - destruct (step e w) as [[o w1]|] eqn:Hstep; simpl in Hrun; [|done].
    destruct (run es w1) as [[os1 w2]|] eqn:Hrest; simpl in Hrun; [|done].
    injection Hrun as <- <-.
    eapply IH; [|done]. by eapply step_configured.
Qed.

(** ** The claims on concrete traffic *)

Import Scenario.

(** C1 (what the code does): on the Strict handler, after client
    10.0.0.1 has spent the burst of ten at one instant, the first request
    of client 10.0.0.2 at that instant is answered 429, although the same
    request with no traffic from 10.0.0.1 is answered 200: the entries of
    both clients hold the one limiter [RateLimitStrictAPI], so the
    decisions for one identity depend on the traffic of the other. *)
Theorem C1_saturating_one_client_rejects_another :
  statuses A_saturates_then_B
  = Some (None :: replicate 10 (Some StatusOK) ++ [Some StatusTooManyRequests])
  ∧ statuses B_alone = Some [None; Some StatusOK]
  ∧ entry_after A_saturates_then_B 0 "10.0.0.1"
    = Some (Some {| limiter := RateLimitStrictAPI; lastSeen := T |})
  ∧ entry_after A_saturates_then_B 0 "10.0.0.2"
    = Some (Some {| limiter := RateLimitStrictAPI; lastSeen := T |}).
Proof. vm_compute. repeat split. Qed.

(** C2 (what the code does): on the Strict handler, client 10.0.0.1 makes
    one request at [T]; the sweeper pass six minutes later removes its
    entry; but when it returns one second after that pass, at the instant
    at which client 10.0.0.2 has just spent the burst, all ten of its
    requests are answered 429: the new entry holds the shared limiter, not
    a full bucket. *)
Theorem C2_evicted_client_returns_to_a_drained_limiter :
  entry_after (take 2 A_goes_idle) 0 "10.0.0.1"
  = Some (Some {| limiter := RateLimitStrictAPI; lastSeen := T |})
  ∧ entry_after A_goes_idle 0 "10.0.0.1" = Some None
  ∧ statuses A_returns_after_eviction
    = Some ([None; Some StatusOK; None]
            ++ replicate 10 (Some StatusOK)
            ++ replicate 10 (Some StatusTooManyRequests))
  ∧ entry_after A_returns_after_eviction 0 "10.0.0.1"
    = Some (Some {| limiter := RateLimitStrictAPI;
                    lastSeen := T + 6 * Minute + Second |}).
Proof. vm_compute. repeat split. Qed.

(** C3 (what the code does): on the Strict handler (burst 10), client
    10.0.0.2 makes one request at [T]; client 10.0.0.1, first seen at [T],
    then issues eleven requests at [T]: only its first nine are answered
    200, its tenth and eleventh 429. *)
Theorem C3_first_seen_client_gets_less_than_the_burst :
  statuses A_first_seen_after_B
  = Some ([None; Some StatusOK]
          ++ replicate 9 (Some StatusOK)
          ++ replicate 2 (Some StatusTooManyRequests)).
Proof. vm_compute. reflexivity. Qed.

(** C5 (what the code does): the eleventh request of a client at one
    instant on the Strict handler is answered with status 429 and one JSON
    document with the fields status, body, locked (true) and timestamp
    (the clock reading of line 249), but the header map of the response
    has no Content-Type entry, whereas [writeJSON] with the same status
    and document declares application/json. *)
Theorem C5_rejection_declares_no_content_type :
  (λ rw, (status rw, body rw, header rw !! "Content-Type"%string))
    <$> response_after (Build Strict :: burst_at 0 A T 10) 0 A
                       {| t_seen := T; t_allow := T; t_reject := T + 1 |}
  = Some (Some StatusTooManyRequests,
          [Doc [("status"%string, JString "Request Failed");
                ("body"%string,
                 JString "Rate limit reached. Please wait 5 minutes and try again.");
                ("locked"%string, JBool true);
                ("timestamp"%string, JTime (T + 1))]],
          None)
  ∧ header (writeJSON fresh StatusTooManyRequests
                      (MessageJSON (rejection (T + 1))))
    !! "Content-Type"%string = Some ["application/json"%string].
Proof. vm_compute. split; reflexivity. Qed.

(** C6 (what the code does): first-time requests of one identity create
    no bucket for it. Two first-time requests of the identity 9.9.9.9 on
    the Strict handler at one instant, in either order of taking the
    lock, are both answered 200 and leave one registry entry for 9.9.9.9,
    and that entry holds [RateLimitStrictAPI]: the store holds the four
    limiters of the package before and after. Eleven such requests within
    a microsecond are answered 200 ten times and then 429, again with
    four limiters in the store. And when client 10.0.0.2 has just spent
    the burst, the two first-time requests of 9.9.9.9 are both answered
    429: the entry made for 9.9.9.9 holds the limiter the entry of
    10.0.0.2 holds, not a bucket with the tokens of a new client. *)
Theorem C6_first_requests_create_no_bucket :
  limiters_after [] = Some 4%nat
  ∧ limiters_after two_first_requests = Some 4%nat
  ∧ limiters_after two_first_requests_swapped = Some 4%nat
  ∧ entry_after two_first_requests 0 "9.9.9.9"
    = Some (Some {| limiter := RateLimitStrictAPI; lastSeen := T |})
  ∧ entry_after two_first_requests_swapped 0 "9.9.9.9"
    = Some (Some {| limiter := RateLimitStrictAPI; lastSeen := T |})
  ∧ statuses two_first_requests = Some [None; Some StatusOK; Some StatusOK]
  ∧ statuses two_first_requests_swapped
    = Some [None; Some StatusOK; Some StatusOK]
  ∧ statuses eleven_within_a_microsecond
    = Some (None :: replicate 10 (Some StatusOK)
            ++ [Some StatusTooManyRequests])
  ∧ limiters_after eleven_within_a_microsecond = Some 4%nat
  ∧ entry_after eleven_within_a_microsecond 0 "9.9.9.9"
    = Some (Some {| limiter := RateLimitStrictAPI; lastSeen := T + 1000 |})
  ∧ statuses first_requests_after_another_client
    = Some (None :: replicate 10 (Some StatusOK)
            ++ replicate 2 (Some StatusTooManyRequests))
  ∧ limiters_after first_requests_after_another_client = Some 4%nat
  ∧ entry_after first_requests_after_another_client 0 "9.9.9.9"
    = Some (Some {| limiter := RateLimitStrictAPI; lastSeen := T |})
  ∧ entry_after first_requests_after_another_client 0 "10.0.0.2"
    = Some (Some {| limiter := RateLimitStrictAPI; lastSeen := T |}).
Proof. vm_compute. repeat split. Qed.

(** ** The theorems at concrete inputs *)

Lemma C4_witness :
  run two_public_handlers boot = Some (two_public_answers, two_public_world)
  ∧ (∀ l, l ∈ dom (limiters two_public_world) ↔
          l ∈ [RateLimitPublicAPI; RateLimitInternalAPI; RateLimitUserWebAPI;
               RateLimitStrictAPI])
  ∧ length (handlers two_public_world) = 2%nat
  ∧ ∀ i m, handlers two_public_world !! i = Some m →
           rateLimit m = RateLimitPublicAPI
           ∧ ∀ ip c, clients m !! ip = Some c → limiter c = RateLimitPublicAPI.
Proof.
  assert (run two_public_handlers boot
          = Some (two_public_answers, two_public_world)) as Hrun
      by (vm_compute; reflexivity).
  split; [exact Hrun|].
  destruct (C4_every_entry_holds_the_preset_limiter
              two_public_handlers two_public_answers two_public_world Hrun)
    as (_ & _ & _ & Hdom & _ & Hlen & Hentries & _).
  split; [exact Hdom|]. split; [exact Hlen|].
  intros i m Hm. destruct (Hentries i m Hm) as [(p & Hp & _ & Hrl) Hcs].
  assert (p = Public) as ->.
  { destruct i as [|[|i]]; vm_compute in Hp; congruence. }
  split; [exact Hrl|].
  intros ip c Hc. rewrite <- Hrl. exact (Hcs ip c Hc).
Defined.

Lemma C8_witness :
  scheduled T six_turns
  ∧ sweeper (take 4 six_turns) two_clients !! "10.0.0.1"%string
    = Some {| limiter := RateLimitStrictAPI; lastSeen := T |}
  ∧ sweeper (take 5 six_turns) two_clients !! "10.0.0.1"%string = None
  ∧ sweeper six_turns two_clients !! "10.0.0.1"%string = None
  ∧ sweeper six_turns two_clients !! "10.0.0.2"%string
    = Some {| limiter := RateLimitStrictAPI; lastSeen := T + 3 * Minute |}.
Proof.
  assert (scheduled T six_turns) as Hs.
  { cbn. unfold Sleep. repeat split; intros; vm_compute; discriminate. }
  split; [exact Hs|].
  destruct (C8_sweep_removes_exactly_idle T six_turns two_clients Hs)
    as (_ & Hpass & Hall & _).
  destruct (Hpass 4%nat (turn_at (T + 5 * (Minute + 1000000))) eq_refl)
    as (Hfifth & _).
  split_and!.
  - vm_compute. reflexivity.
  - rewrite (Hfifth "10.0.0.1"%string). vm_compute. reflexivity.
  - rewrite (Hall "10.0.0.1"%string). vm_compute. reflexivity.
  - rewrite (Hall "10.0.0.2"%string). vm_compute. reflexivity.
Defined.

Lemma C7_witness :
  Net.SplitHostPort (RemoteAddr (request no_port)) = inr Net.missingPort
  ∧ ServeHTTP ok_handler RateLimitStrictAPI (at_instant T) fresh
              (request no_port) ∅ (package_init, ())
    = Some (WriteHeader StatusInternalServerError fresh, ∅, (package_init, ())).
Proof.
  assert (Net.SplitHostPort (RemoteAddr (request no_port))
          = inr Net.missingPort) as Hsplit by reflexivity.
  split; [exact Hsplit|].
  exact (proj1 (C7_unsplittable_address_is_server_error
                  ok_handler RateLimitStrictAPI (at_instant T) fresh
                  (request no_port) ∅ (package_init, ()) Net.missingPort
                  Hsplit)).
Defined.

Lemma C9_witness :
  ∃ ok store' w' σ',
    admission RateLimitStrictAPI "10.0.0.1" T T (limiters saturated)
          saturated_registry
    = Some (ok, store',
            touch "10.0.0.1" T
                  (getOrCreate RateLimitStrictAPI "10.0.0.1" saturated_registry))
    ∧ ServeHTTP ok_handler RateLimitStrictAPI (at_instant T) fresh (request A)
                saturated_registry (limiters saturated, ())
      = Some (w',
              touch "10.0.0.1" T
                    (getOrCreate RateLimitStrictAPI "10.0.0.1" saturated_registry),
              σ').
Proof.
  destruct (C9_lastSeen_set_on_every_admission_check
              ok_handler RateLimitStrictAPI (at_instant T) fresh (request A)
              saturated_registry (limiters saturated, ()) "10.0.0.1" "40000")
    as (ok & store' & w' & σ' & Hadmit & Hserve & _).
  - vm_compute. reflexivity.
  - vm_compute. eexists. reflexivity.
  - exists ok, store', w', σ'. split; [exact Hadmit|exact Hserve].
Defined.


(** * The rest of the package *)

(** ** [strings.Split] *)

Lemma Split_not_nil (s : string) (sep : ascii) : Strings.Split s sep ≠ [].
Proof.
  destruct s as [|c s]; simpl; [done|].
  destruct (Ascii.eqb c sep); [done|].
  by destruct (Strings.Split s sep).
Qed.

(** The number of fields is one more than the number of separators. *)
Lemma Split_length (s : string) (sep : ascii) :
  length (Strings.Split s sep) = S (Strings.Count s sep).
Proof.
  induction s as [|c s IH]; simpl; [done|].
  destruct (Ascii.eqb c sep); simpl.
  - by rewrite IH.
  - pose proof (Split_not_nil s sep).
    destruct (Strings.Split s sep); [done|]. simpl in *. done.
Qed.

(** No field contains the separator, and joining the fields gives the
    string back. *)
Lemma Split_fields (s : string) (sep : ascii) :
  Forall (λ x, Strings.Count x sep = 0%nat) (Strings.Split s sep)
  ∧ Strings.Join (Strings.Split s sep) sep = s.
Proof.
  induction s as [|c s [IHf IHj]]; simpl.
  - split; [by repeat constructor|done].
  - pose proof (Split_not_nil s sep) as Hne.
    destruct (Ascii.eqb c sep) eqn:Hc.
    + apply Ascii.eqb_eq in Hc as ->. split; [by constructor|].
      destruct (Strings.Split s sep) as [|x xs]; [done|].
      simpl in *. by rewrite IHj.
    + destruct (Strings.Split s sep) as [|x xs]; [done|].
      apply Forall_cons in IHf as [Hx Hxs]. split.
      * constructor; [|done]. simpl. by rewrite Hc.
      * simpl in *. destruct xs; simpl in *; by rewrite <- IHj.
Qed.

Lemma Split_no_sep (s : string) (sep : ascii) :
  Strings.Count s sep = 0%nat → Strings.Split s sep = [s].
Proof.
  induction s as [|c s IH]; simpl; [done|].
  destruct (Ascii.eqb c sep); [done|]. simpl. intros H. by rewrite IH.
Qed.

(** A field without separator in front of a separator is split off. *)
Lemma Split_app (a b : string) (sep : ascii) :
  Strings.Count a sep = 0%nat →
  Strings.Split (a ++ String sep b) sep = a :: Strings.Split b sep.
Proof.
  induction a as [|c a IH]; simpl.
  - intros _. by rewrite Ascii.eqb_refl.
  - destruct (Ascii.eqb c sep); [done|]. simpl. intros H. by rewrite IH.
Qed.

Lemma Count_app (a b : string) (sep : ascii) :
  Strings.Count (a ++ b) sep = (Strings.Count a sep + Strings.Count b sep)%nat.
Proof. induction a as [|c a IH]; simpl; [done|]. rewrite IH. lia. Qed.

(** ** [LoggerMiddleware] *)

Section Logger.

Import Web Middlewares.

Context {S D : Type}.
Variable next : Web.Handler S D.

(** X1: for a request whose remote address splits and whose context
    carries the server's local address, [LoggerMiddleware] appends exactly
    one record to the log and then calls [next] once on the unchanged
    writer and request. The record's message is the literal "ip_address",
    and, because the key strings and the values are passed to [slog.Info]
    shifted by one, its attributes are keyed by the values: the client IP
    is the key of "host", the URL host the key of "server_addr", the server
    address the key of "user_agent", and the user agent the key of the
    request line. *)
Theorem X1_logger_record_is_keyed_by_values
        (w : ResponseWriter) (r : Req S) (log : list Slog.Entry) (d : D)
        (ip port srvAddr : string) :
  Net.SplitHostPort (RemoteAddr (line r)) = inl (ip, port) →
  CtxValue (ReqContext r) LocalAddrContextKey = Some (Addr srvAddr) →
  LoggerMiddleware next w r (log, d)
  = Returned
      ((next w r d).1,
       (log ++ [ {| Slog.Msg := "ip_address";
                    Slog.Attrs :=
                      [ (ip, "host"%string);
                        (URLHost r, "server_addr"%string);
                        (srvAddr, "user_agent"%string);
                        (HeaderGet (ReqHeader r) "User-Agent",
                         request_line (line r)) ] |} ],
        (next w r d).2)).
Proof.
  intros Hsplit Hctx. unfold LoggerMiddleware. by rewrite Hsplit, Hctx.
Qed.

(** X2: for a request whose remote address splits but whose context has
    no [net.Addr] under [http.LocalAddrContextKey] (no value at all, or a
    value of another type), [LoggerMiddleware] panics in the unchecked type
    assertion: nothing is logged and [next] is not called. *)
Theorem X2_logger_panics_without_local_address
        (w : ResponseWriter) (r : Req S) (σ : list Slog.Entry * D)
        (ip port : string) :
  Net.SplitHostPort (RemoteAddr (line r)) = inl (ip, port) →
  (∀ srvAddr, CtxValue (ReqContext r) LocalAddrContextKey
              ≠ Some (Addr srvAddr)) →
  LoggerMiddleware next w r σ = Panicked.
Proof.
  intros Hsplit Hctx. unfold LoggerMiddleware. rewrite Hsplit.
  destruct (CtxValue (ReqContext r) LocalAddrContextKey) as [[a|s]|];
    [by destruct (Hctx a)|done..].
Qed.

(** X3: for a request whose remote address does not split,
    [LoggerMiddleware] answers with status 500 before it looks at the
    context: it returns even without a local address, logs nothing and does
    not call [next]. *)
Theorem X3_logger_unsplittable_address
        (w : ResponseWriter) (r : Req S) (σ : list Slog.Entry * D)
        (e : Net.AddrError) :
  Net.SplitHostPort (RemoteAddr (line r)) = inr e →
  LoggerMiddleware next w r σ
  = Returned (WriteHeader StatusInternalServerError w, σ)
  ∧ (status w = None →
     status (WriteHeader StatusInternalServerError w) = Some 500).
Proof.
  intros Hsplit. unfold LoggerMiddleware. rewrite Hsplit. split; [done|].
  unfold WriteHeader. by intros ->.
Qed.

End Logger.

(** ** [http.Error] *)

(** On a writer with no header written and with a code that
    [WriteHeader] records and that allows a body. *)
Lemma Error_response (w : ResponseWriter) (msg : string) (code : Z) :
  status w = None →
  checkWriteHeaderCode code = true → informational code = false →
  bodyAllowedForStatus code = true →
  status (Web.Error w msg code) = Some code
  ∧ body (Web.Error w msg code)
    = body w ++ [Raw (msg ++ String "010"%char EmptyString)]
  ∧ header (Web.Error w msg code) !! "Content-Type"%string
    = Some ["text/plain; charset=utf-8"%string].
Proof.
  intros Hw Hcode Hinf Hbody.
  unfold Web.Error, Write, WriteHeader_panics, WriteHeader, Web.HeaderSet.
  cbn [status]. rewrite Hw, Hcode, Hinf.
  destruct msg; simpl; rewrite Hbody; simpl; (split_and!; [done|done|]);
    rewrite lookup_insert_ne by done; by rewrite lookup_insert_eq.
Qed.

(** ** The Clerk middlewares *)

Section Clerk.

Import Web Middlewares.

Context {S D : Type}.
Variable VerifyToken : string → option S.
Variable next : Web.Handler S D.

(** X4: [ClerkAuthMiddleware] forwards a request whose Authorization
    header is "Bearer", one space, and a token without a space that the
    client verifies: [next] is called once, on the unchanged writer and on
    the request with the session stored in its context under
    [ClerkSessionName], in front of the values the context had. *)
Theorem X4_clerk_auth_forwards_verified_bearer
        (w : ResponseWriter) (r : Req S) (d : D)
        (token : string) (session : S) :
  HeaderGet (ReqHeader r) "Authorization" = ("Bearer " ++ token)%string →
  Strings.Count token " " = 0%nat →
  VerifyToken token = Some session →
  ClerkAuthMiddleware VerifyToken next w r d
  = next w (WithContext r ((ClerkSessionName, Session session)
                           :: ReqContext r)) d
  ∧ CtxValue ((ClerkSessionName, Session session) :: ReqContext r)
             ClerkSessionName = Some (Session session).
Proof.
  intros Hh Htok Hv. unfold ClerkAuthMiddleware. rewrite Hh.
  change ("Bearer " ++ token)%string
    with ("Bearer" ++ String " " token)%string.
  rewrite (Split_app "Bearer" token " ") by done.
  rewrite (Split_no_sep token " " Htok). simpl. by rewrite Hv.
Qed.

(** X5: in every other case (no Authorization header, a header that is
    not "Bearer", one space and a token without a space, or a token the
    client does not verify) [ClerkAuthMiddleware] answers through
    [http.Error] with status 401 and one of its three messages, and [next]
    is not called: the downstream state is returned as it was. *)
Theorem X5_clerk_auth_rejects_everything_else
        (w : ResponseWriter) (r : Req S) (d : D) :
  (∀ token session,
      HeaderGet (ReqHeader r) "Authorization" = ("Bearer " ++ token)%string →
      Strings.Count token " " = 0%nat →
      VerifyToken token ≠ Some session) →
  ∃ msg,
    ClerkAuthMiddleware VerifyToken next w r d
    = (Error w msg StatusUnauthorized, d)
    ∧ msg ∈ ["Unauthorized"%string; "Invalid authorization header"%string;
             "Invalid session"%string]
    ∧ (status w = None →
       status (Error w msg StatusUnauthorized) = Some 401).
Proof.
  intros Hno.
  assert (∀ msg, status w = None →
                 status (Error w msg StatusUnauthorized) = Some 401) as Hst.
  { intros msg Hw. by destruct (Error_response w msg StatusUnauthorized Hw). }
  unfold ClerkAuthMiddleware.
  destruct (String.eqb (HeaderGet (ReqHeader r) "Authorization") "") eqn:He.
  { exists "Unauthorized"%string. split_and!; [done|set_solver|apply Hst]. }
  destruct (Split_fields (HeaderGet (ReqHeader r) "Authorization") " ")
    as [Hf Hj].
  destruct (Strings.Split (HeaderGet (ReqHeader r) "Authorization") " ")
    as [|x [|y [|z parts]]] eqn:Hs; simpl;
    try (exists "Invalid authorization header"%string;
         split_and!;
         [done|set_solver|exact (Hst "Invalid authorization header"%string)]).
  destruct (String.eqb x "Bearer") eqn:Hx; simpl.
  - apply String.eqb_eq in Hx as ->.
    destruct (VerifyToken y) as [session|] eqn:Hv.
    + exfalso. apply (Hno y session); [|by inversion Hf as [|? ? ? Hy]; inversion Hy|done].
      by rewrite <- Hj.
    + exists "Invalid session"%string.
      split_and!; [done|set_solver|exact (Hst "Invalid session"%string)].
  - exists "Invalid authorization header"%string.
    split_and!;
      [done|set_solver|exact (Hst "Invalid authorization header"%string)].
Qed.

(** X6: [ClerkWebhookMiddleware] with a configured secret forwards a
    request exactly on the strength of its X-Clerk-Signature header being
    equal to the secret itself: then [next] is called once on the unchanged
    writer and request, whatever else the request holds. *)
Theorem X6_clerk_webhook_forwards_on_the_secret
        (secret : string) (w : ResponseWriter) (r : Req S) (d : D) :
  secret ≠ EmptyString →
  HeaderGet (ReqHeader r) "X-Clerk-Signature" = secret →
  ClerkWebhookMiddleware secret next w r d = next w r d.
Proof.
  intros Hs Hh. unfold ClerkWebhookMiddleware. rewrite Hh.
  apply String.eqb_neq in Hs. rewrite Hs, String.eqb_refl. done.
Qed.

(** X7: when the secret is empty, or the X-Clerk-Signature header differs
    from it, [ClerkWebhookMiddleware] does not call [next]: it answers
    through [http.Error], with status 500 for an empty secret, even if the
    header is empty too and so equal to it, and with status 401
    otherwise. *)
Theorem X7_clerk_webhook_rejects
        (secret : string) (w : ResponseWriter) (r : Req S) (d : D) :
  secret = EmptyString
  ∨ HeaderGet (ReqHeader r) "X-Clerk-Signature" ≠ secret →
  ∃ msg,
    ClerkWebhookMiddleware secret next w r d
    = (Error w msg (if String.eqb secret ""
                    then StatusInternalServerError else StatusUnauthorized),
       d).
Proof.
  intros Hcase. unfold ClerkWebhookMiddleware.
  destruct (String.eqb secret "") eqn:Hs; [by eexists|].
  destruct Hcase as [->|Hne]; [done|].
  destruct (String.eqb (HeaderGet (ReqHeader r) "X-Clerk-Signature") "");
    [by eexists|].
  assert (String.eqb secret (HeaderGet (ReqHeader r) "X-Clerk-Signature")
          = false) as ->.
  { apply String.eqb_neq. congruence. }
  by eexists.
Qed.

End Clerk.

(** ** Responses *)


Section Responses.

Import Web Responses.

Variable TimeString : Z → string.
Context {R D : Type}.
Variable f : APIFunc R D.



End Responses.

(** ** The server builder *)

(** X11: every setter of [HTTPServer] builds its result from scratch, so
    after any chain of calls that is not empty, on any server, the result
    is the zero server with the one field of the last call set. In
    particular the address given to [NewServer] is lost, and in
    [NewServer(a).WithHandler(h).WithWriteTimeout(t)] the handler is nil
    again and the default read and idle timeouts are zero. *)
Theorem X11_setters_keep_only_the_last_field
        {H : Type} (h : Server.HTTPServer H) (calls : list (Server.Setter H))
        (last : Server.Setter H) (address : string) (handler : H) (wto : Z) :
  Server.chain h (calls ++ [last]) = Server.call Server.zero last
  ∧ Server.Address (Server.chain h (calls ++ [last])) = EmptyString
  ∧ Server.WithWriteTimeout
      (Server.WithHandler (Server.NewServer address) handler) wto
    = {| Server.Address := ""; Server.WriteTimeout := wto;
         Server.ReadTimeout := 0; Server.IdleTimeout := 0;
         Server.Handler := None |}.
Proof.
  unfold Server.chain. rewrite foldl_app. simpl.
  split_and!; [by destruct last|by destruct last|done].
Qed.

(** ** [SafeString], [SafeBool], [SafeTime] *)

(** X12: each accessor returns something else than its default only for a
    key that holds a value of its own type: a missing key, a nil, a value
    of another type and a stored default all read the same. Hence for one
    key at most one of the three accessors returns a value that is not its
    default. *)
Theorem X12_safe_accessors (data : gmap string Utilities.Any) (key : string) :
  (∀ s, s ≠ EmptyString →
        Utilities.SafeString data key = s ↔ data !! key = Some (Utilities.Str s))
  ∧ (Utilities.SafeBool data key = true
     ↔ data !! key = Some (Utilities.Bool true))
  ∧ (∀ t, t ≠ Time.zero →
          Utilities.SafeTime data key = t
          ↔ data !! key = Some (Utilities.TimeValue t))
  ∧ ((if decide (Utilities.SafeString data key = EmptyString) then 0 else 1)
     + (if decide (Utilities.SafeBool data key = false) then 0 else 1)
     + (if decide (Utilities.SafeTime data key = Time.zero) then 0 else 1)
     ≤ 1).
Proof.
  unfold Utilities.SafeString, Utilities.SafeBool, Utilities.SafeTime.
  destruct (data !! key) as [[|s'|b|t'|k]|]; split_and!;
    try (intros x Hx; split; [intros <-|intros [= <-]]; done);
    try (split; [intros <-|intros [= <-]]; done);
    try (split; [done|intros [=]]);
    try (intros x Hx; split; [done|intros [=]]);
    repeat case_decide; try lia; try done.
Qed.

(** ** JSON web tokens *)

Lemma tokenExpiration_cases (e : Z) :
  e ≤ 307445734 →
  JWT.tokenExpiration e
  = (if e <? 0 then 0
     else if e <=? 153722867 then e * Minute
     else e * Minute - 2 ^ 64).
Proof.
  intros He. unfold JWT.tokenExpiration, JWT.wrap64, Minute, Second, Nanosecond.
  destruct (e <? 0) eqn:H1.
  - assert ((0 <=? e) = false) as -> by lia. done.
  - assert ((0 <=? e) = true) as -> by lia.
    destruct (e <=? 153722867) eqn:H2.
    + rewrite Z.mod_small by lia. lia.
    + rewrite <- (Z.mod_add _ (-1)) by lia. rewrite Z.mod_small by lia. lia.
Qed.

Section Generate.

Variable N : Type.
Variable NewNumericDate : Z → N.
Variable SignedString : JWT.RegisteredClaims N → list byte → string + string.

(** X13: [Generate] with a nil expiration panics instead of applying the
    fifteen minutes, since the pointer is dereferenced after the nil test.
    With an expiration of [e] minutes it returns what signing yields for
    claims with the service's issuer, the email as subject, the id as
    token id, and an expiry that lies, after the first clock reading,
    exactly [e] minutes for 0 <= e <= 153722867, zero time for a negative
    [e], and, through the overflow of the int64 product, a negative time
    for 153722867 < e <= 307445734: then the token has expired before it
    is issued. *)
Theorem X13_Generate_expiration
        (tkn : JWT.JWT) (claims : JWT.JWTClaims) (e t1 t2 t3 : Z) :
  e ≤ 307445734 →
  let lifetime := if e <? 0 then 0
                  else if e <=? 153722867 then e * (60 * 1000000000)
                  else e * (60 * 1000000000) - 2 ^ 64 in
  JWT.Generate N NewNumericDate SignedString tkn claims (Some e) t1 t2 t3
  = match SignedString
            {| JWT.ExpiresAt := NewNumericDate (t1 + lifetime);
               JWT.IssuedAt := NewNumericDate t2;
               JWT.NotBefore := NewNumericDate t3;
               JWT.ClaimIssuer := JWT.Issuer tkn;
               JWT.Subject := JWT.Email claims;
               JWT.ClaimID := JWT.ID claims |} (JWT.SigningKey tkn) with
    | inr err => Web.Returned (EmptyString, Some err)
    | inl ss => Web.Returned (ss, None)
    end
  ∧ (153722867 < e → lifetime < 0)
  ∧ JWT.Generate N NewNumericDate SignedString tkn claims None t1 t2 t3
    = Web.Panicked.
Proof.
  intros He lifetime. split_and!.
  - unfold JWT.Generate. rewrite (tokenExpiration_cases e He).
    unfold lifetime, Minute, Second, Nanosecond.
    by replace (60 * (1000000000 * 1)) with (60 * 1000000000) by lia.
  - intros Hbig. unfold lifetime.
    destruct (e <? 0) eqn:H1; [lia|].
    destruct (e <=? 153722867) eqn:H2; lia.
  - done.
Qed.

End Generate.

Section Verify.

Variable Parse : string → (JWT.Token → list byte + string) → JWT.Token + string.

(** X14: when [jwt.Parse] accepts a token with map claims, [Verify]
    returns no error and the claims "jti" and "sub" as printed by
    [fmt.Sprint]: a claim that is missing is returned as the text "<nil>",
    not as an error or an empty string. The result does not depend on the
    service's issuer: a service with the same key and any other issuer
    returns the same. *)
Theorem X14_Verify_prints_the_claims
        (tkn : JWT.JWT) (tokenString : string) (token : JWT.Token)
        (m : gmap string JWT.ClaimValue) (issuer' : string) :
  Parse tokenString (JWT.keyfunc tkn) = inl token →
  JWT.TokenClaims token = JWT.MapClaims m →
  JWT.Verify Parse tkn tokenString
  = ({| JWT.ID := JWT.Sprint (m !! "jti"%string);
        JWT.Email := JWT.Sprint (m !! "sub"%string) |}, None)
  ∧ (m !! "jti"%string = None →
     JWT.ID (JWT.Verify Parse tkn tokenString).1 = "<nil>"%string)
  ∧ (m !! "sub"%string = None →
     JWT.Email (JWT.Verify Parse tkn tokenString).1 = "<nil>"%string)
  ∧ JWT.Verify Parse {| JWT.Issuer := issuer';
                        JWT.SigningKey := JWT.SigningKey tkn |} tokenString
    = JWT.Verify Parse tkn tokenString.
Proof.
  intros Hparse Hclaims.
  assert (JWT.Verify Parse tkn tokenString
          = ({| JWT.ID := JWT.Sprint (m !! "jti"%string);
                JWT.Email := JWT.Sprint (m !! "sub"%string) |}, None)) as Hv.
  { unfold JWT.Verify. by rewrite Hparse, Hclaims. }
  rewrite Hv. simpl. split_and!; [done|by intros ->|by intros ->|].
  rewrite <- Hv. done.
Qed.

End Verify.

(** ** The Argon2 hashes *)

Section Hash.

Variable SscanfVersion : string → Z + string.
Variable SscanfParams : string → (Z * Z * Z) + string.
Variable EncodeToString : list byte → string.
Variable DecodeString : string → list byte + string.
Variable IDKey : list byte → list byte → Z → Z → Z → Z → list byte.
Variable randRead : Z → list byte + string.

(** X15: [decodeHash] fails with [errInvalidHash] on every string whose
    number of dollar signs is not five, before anything is parsed; and
    [IsMatchingInputAndHash] then answers false with that error, for every
    input. *)
Theorem X15_decodeHash_needs_five_dollars (encoded input : string) :
  Strings.Count encoded "$" ≠ 5%nat →
  Hash.decodeHash SscanfVersion SscanfParams DecodeString encoded
  = inr Hash.errInvalidHash
  ∧ Hash.IsMatchingInputAndHash SscanfVersion SscanfParams DecodeString IDKey
                                input encoded
    = (false, Some Hash.errInvalidHash).
Proof.
  intros Hc.
  assert (Hash.decodeHash SscanfVersion SscanfParams DecodeString encoded
          = inr Hash.errInvalidHash) as Hd.
  { unfold Hash.decodeHash. rewrite Split_length.
    destruct (S (Strings.Count encoded "$") =? 6)%nat eqn:E; [|done].
    apply Nat.eqb_eq in E. lia. }
  split; [done|]. unfold Hash.IsMatchingInputAndHash. by rewrite Hd.
Qed.

(** X16: [decodeHash] reads neither the text in front of the first dollar
    sign nor the variant field after it: whatever these two are, the
    string decodes, and an input matches it, exactly as the string that
    starts with "$argon2id$" and continues in the same way. *)
Theorem X16_decodeHash_ignores_the_variant
        (prefix variant rest input : string) :
  Strings.Count prefix "$" = 0%nat →
  Strings.Count variant "$" = 0%nat →
  Hash.decodeHash SscanfVersion SscanfParams DecodeString
                  (prefix ++ "$" ++ variant ++ "$" ++ rest)
  = Hash.decodeHash SscanfVersion SscanfParams DecodeString
                    ("$argon2id$" ++ rest)
  ∧ Hash.IsMatchingInputAndHash SscanfVersion SscanfParams DecodeString IDKey
                                input (prefix ++ "$" ++ variant ++ "$" ++ rest)
    = Hash.IsMatchingInputAndHash SscanfVersion SscanfParams DecodeString IDKey
                                  input ("$argon2id$" ++ rest).
Proof.
  intros Hp Hv.
  assert (Hash.decodeHash SscanfVersion SscanfParams DecodeString
                          (prefix ++ "$" ++ variant ++ "$" ++ rest)
          = Hash.decodeHash SscanfVersion SscanfParams DecodeString
                            ("$argon2id$" ++ rest)) as Hd.
  { unfold Hash.decodeHash.
    change (prefix ++ "$" ++ variant ++ "$" ++ rest)%string
      with (prefix ++ String "$" (variant ++ String "$" rest))%string.
    change ("$argon2id$" ++ rest)%string
      with ("" ++ String "$" ("argon2id" ++ String "$" rest))%string.
    rewrite (Split_app prefix _ "$" Hp), (Split_app variant _ "$" Hv).
    rewrite (Split_app "" _ "$") by done.
    rewrite (Split_app "argon2id" _ "$") by done.
    done. }
  split; [done|]. unfold Hash.IsMatchingInputAndHash. by rewrite Hd.
Qed.

(** X17: a hash made by [GenerateHashString] matches its input, and
    matches another input exactly when that input derives the same key
    with the salt and the fixed parameters. The facts about the libraries
    that this rests on are hypotheses, each about the values at hand: the
    two scans read back "v=19" and "m=65536,t=3,p=2", base64 decodes what
    it encoded and writes no dollar sign, [rand.Read] gave the salt, and
    the derived key has the 32 bytes asked for. *)
Theorem X17_generated_hash_matches_its_input
        (input : string) (salt : list byte) :
  let hash := IDKey (list_byte_of_string input) salt 3 (64 * 1024) 2 32 in
  SscanfVersion "v=19" = inl 19 →
  SscanfParams "m=65536,t=3,p=2" = inl (65536, 3, 2) →
  DecodeString (EncodeToString salt) = inl salt →
  DecodeString (EncodeToString hash) = inl hash →
  Strings.Count (EncodeToString salt) "$" = 0%nat →
  Strings.Count (EncodeToString hash) "$" = 0%nat →
  randRead 16 = inl salt →
  length hash = 32%nat →
  ∃ encoded,
    Hash.GenerateHashString EncodeToString IDKey randRead input
    = (encoded, None)
    ∧ Strings.Split encoded "$"
      = [EmptyString; "argon2id"%string; "v=19"%string;
         "m=65536,t=3,p=2"%string; EncodeToString salt; EncodeToString hash]
    ∧ Hash.IsMatchingInputAndHash SscanfVersion SscanfParams DecodeString
                                  IDKey input encoded = (true, None)
    ∧ ∀ input',
        Hash.IsMatchingInputAndHash SscanfVersion SscanfParams DecodeString
                                    IDKey input' encoded
        = (bool_decide (IDKey (list_byte_of_string input') salt 3 (64 * 1024)
                              2 32 = hash), None).
Proof.
  intros hash Hv Hp Hs Hh Hcs Hch Hr Hlen.
  set (encoded := ("$argon2id$v=19$m=65536,t=3,p=2$" ++ EncodeToString salt
                   ++ "$" ++ EncodeToString hash)%string).
  assert (Strings.Split encoded "$"
          = [EmptyString; "argon2id"%string; "v=19"%string;
             "m=65536,t=3,p=2"%string; EncodeToString salt;
             EncodeToString hash]) as Hsplit.
  { unfold encoded.
    change ("$argon2id$v=19$m=65536,t=3,p=2$" ++ EncodeToString salt
            ++ "$" ++ EncodeToString hash)%string
      with ("" ++ String "$" ("argon2id" ++ String "$" ("v=19" ++ String "$"
            ("m=65536,t=3,p=2" ++ String "$"
             (EncodeToString salt ++ String "$" (EncodeToString hash))))))%string.
    rewrite !Split_app by done. by rewrite Split_no_sep. }
  assert (∀ input',
            Hash.IsMatchingInputAndHash SscanfVersion SscanfParams DecodeString
                                        IDKey input' encoded
            = (bool_decide (IDKey (list_byte_of_string input') salt 3
                                  (64 * 1024) 2 32 = hash), None)) as Hmatch.
  { intros input'. unfold Hash.IsMatchingInputAndHash, Hash.decodeHash.
    rewrite Hsplit. simpl. rewrite Hv. simpl. rewrite Hp, Hs, Hh. simpl.
    rewrite Hlen. simpl. unfold Hash.ConstantTimeCompare.
    change (32 mod 2 ^ 32) with 32. change 65536 with (64 * 1024).
    destruct (list_eq_dec hash _) as [Heq|Hne].
    - by rewrite bool_decide_eq_true_2.
    - by rewrite bool_decide_eq_false_2. }
  exists encoded. split_and!.
  - unfold Hash.GenerateHashString, Hash.generateRandomBytes. simpl.
    rewrite Hr. done.
  - done.
  - rewrite Hmatch. by rewrite bool_decide_eq_true_2.
  - done.
Qed.

End Hash.

(** ** The registry and the sweeper do not decide admissions *)

Lemma step_Serve_unsplittable (i : nat) (addr : string) (clk : Clock)
      (w : World) (m : Middleware) :
  handlers w !! i = Some m → identity addr = None →
  step (Serve i addr clk) w
  = Some (Some StatusInternalServerError,
          {| limiters := limiters w;
             handlers := <[i := {| rateLimit := rateLimit m;
                                   clients := clients m |}]> (handlers w) |}).
Proof.
  intros Hm Hid. unfold identity in Hid. simpl. rewrite Hm. simpl.
  unfold ServeHTTP. simpl.
  destruct (Net.SplitHostPort addr) as [[ip port]|e]; [done|]. done.
Qed.

Lemma answers_cons (o : option Z) (os : list (option Z)) :
  Trace.answers (o :: os) = from_option (λ z, [z]) [] o ++ Trace.answers os.
Proof. by destruct o. Qed.

Lemma without_sweeps_simulation (es : list Event) :
  ∀ (ps : list Preset) (w1 w2 : World) (os : list (option Z)) (w1' : World),
    consistent ps w1 → consistent ps w2 → Trace.same_limiters w1 w2 →
    run es w1 = Some (os, w1') →
    ∃ os' w2',
      run (Trace.without_sweeps es) w2 = Some (os', w2')
      ∧ Trace.answers os' = Trace.answers os
      ∧ Trace.same_limiters w1' w2'.
Proof.
  induction es as [|e es IH]; intros ps w1 w2 os w1' Hc1 Hc2 Hsim Hrun.
  { simpl in Hrun. injection Hrun as <- <-. by exists [], w2. }
  simpl in Hrun.
  destruct (step e w1) as [[o w1a]|] eqn:Hstep; simpl in Hrun; [|done].
  destruct (run es w1a) as [[os1 w1b]|] eqn:Hrest; simpl in Hrun; [|done].
  injection Hrun as <- <-.
  pose proof (step_consistent ps e w1 o w1a Hc1 Hstep) as Hc1a.
  destruct Hsim as [Hl Hh].
  destruct e as [p|i addr clk|i now].
  - (* a constructor call: made in both traces *)
    injection Hstep as <- <-.
    destruct (IH (ps ++ built [Build p])
                 {| limiters := limiters w1;
                    handlers := handlers w1 ++ [constructor p] |}
                 {| limiters := limiters w2;
                    handlers := handlers w2 ++ [constructor p] |}
                 os1 w1b) as (os' & w2' & Hrun2 & Hans & Hsim');
      [done| |split; [done|by apply Forall2_app; [|repeat constructor]]|done|].
    { by apply (step_consistent ps (Build p) w2 None). }
    exists (None :: os'), w2'. simpl. rewrite Hrun2. simpl.
    split_and!; [done| |done]. unfold Trace.answers in *. simpl. done.
  - (* a request: the same answer from the same limiter *)
    pose proof Hstep as (m1 & Hm1 & Hcase)%step_Serve.
    destruct (Forall2_lookup_l _ _ _ _ _ Hh Hm1) as (m2 & Hm2 & Hrl).
    destruct Hc1 as [Hdom1 Hall1]. destruct Hc2 as [Hdom2 Hall2].
    destruct (Forall2_lookup_r _ _ _ _ _ Hall1 Hm1) as (p1 & Hp1 & _ & Hal1).
    destruct (Forall2_lookup_r _ _ _ _ _ Hall2 Hm2) as (p2 & Hp2 & Hrl2 & Hal2).
    assert (∃ w2a, step (Serve i addr clk) w2 = Some (o, w2a)
                   ∧ Trace.same_limiters w1a w2a) as (w2a & Hstep2 & Hsima).
    { destruct (identity addr) as [ip|] eqn:Hid.
      - unfold identity in Hid.
        destruct (Net.SplitHostPort addr) as [[ip' port]|err] eqn:Hsplit;
          [|done].
        injection Hid as ->.
        destruct Hcase as (ok & store' & cs' & Hadm & -> & Hl1 & Hh1).
        apply admission_Some in Hadm as (lim & Hlim & -> & -> & ->).
        rewrite aliased_limiter in Hlim, Hl1 by done.
        destruct w2 as [store2 hs2]. cbn [limiters handlers] in *.
        subst store2.
        eexists. split.
        + rewrite (step_Serve_eq i addr ip clk (limiters w1) hs2 m2 lim);
            [done|done|done|by rewrite <- Hrl|].
          unfold identity. by rewrite Hsplit.
        + split; simpl; [by rewrite Hl1, Hrl|].
          rewrite Hh1. by apply Forall2_insert.
      - rewrite (step_Serve_unsplittable i addr clk w1 m1 Hm1 Hid) in Hstep.
        injection Hstep as <- <-.
        eexists. split; [by apply step_Serve_unsplittable|].
        split; simpl; [done|]. by apply Forall2_insert. }
    destruct (IH (ps ++ built [Serve i addr clk]) w1a w2a os1 w1b)
      as (os' & w2' & Hrun2 & Hans & Hsim'); [done| |done|done|].
    { by apply (step_consistent ps (Serve i addr clk) w2 o). }
    exists (o :: os'), w2'. cbn [Trace.without_sweeps run].
    rewrite Hstep2. cbn [mbind option_bind]. rewrite Hrun2.
    cbn [mbind option_bind].
    split_and!; [done| |done]. by rewrite !answers_cons, Hans.
  - (* a sweeper pass: deleted from the second trace *)
    simpl in Hstep.
    destruct (handlers w1 !! i) as [m1|] eqn:Hm1; simpl in Hstep; [|done].
    injection Hstep as <- <-.
    destruct (Forall2_lookup_l _ _ _ _ _ Hh Hm1) as (m2 & Hm2 & Hrl).
    simpl in Hc1a. rewrite app_nil_r in Hc1a.
    destruct (IH ps _ w2 os1 w1b Hc1a Hc2) as (os' & w2' & Hrun2 & Hans & Hsim');
      [|done|].
    { split; simpl; [done|].
      rewrite <- (list_insert_id (handlers w2) i m2 Hm2).
      by apply Forall2_insert. }
    exists os', w2'. split_and!; [done| |done].
    unfold Trace.answers in *. simpl. done.
Qed.

(** X18: the per-client registry and its sweeper never influence an
    admission decision. For every trace of constructor calls, requests and
    sweeper passes from package initialisation, the trace with all sweeper
    passes deleted runs too, answers every request with the same status
    code and leaves the same limiter states. *)
Theorem X18_sweeper_never_changes_an_answer
        (es : list Event) (os : list (option Z)) (w : World) :
  run es boot = Some (os, w) →
  ∃ os' w',
    run (Trace.without_sweeps es) boot = Some (os', w')
    ∧ Trace.answers os' = Trace.answers os
    ∧ limiters w' = limiters w.
Proof.
  intros Hrun.
  destruct (without_sweeps_simulation es [] boot boot os w)
    as (os' & w' & Hrun' & Hans & Hl & _);
    [apply boot_consistent|apply boot_consistent| |done|].
  { split; [done|]. constructor. }
  exists os', w'. by split_and!.
Qed.

(** ** What a registry can hold *)

Lemma dom_sweep (now : string → Z) (cs : gmap string client) :
  dom (sweep now cs) ⊆ dom cs.
Proof.
  intros ip [c Hc]%elem_of_dom. rewrite sweep_lookup in Hc.
  apply elem_of_dom. destruct (cs !! ip); [by eexists|done].
Qed.

Lemma identities_seen_cons (i : nat) (e : Event) (es : list Event) :
  Trace.identities_seen i (e :: es)
  = Trace.identities_seen i [e] ∪ Trace.identities_seen i es.
Proof.
  destruct e; simpl; [by rewrite (left_id_L ∅ (∪))| |by rewrite (left_id_L ∅ (∪))].
  by rewrite (right_id_L ∅ (∪)).
Qed.

(** One transition adds to the registry of handler [i] at most the
    identity of a request made to it. *)
Lemma step_registry (i : nat) (e : Event) (w : World) (o : option Z)
      (w' : World) :
  step e w = Some (o, w') →
  from_option (λ m, dom (clients m)) ∅ (handlers w' !! i)
  ⊆ Trace.identities_seen i [e]
    ∪ from_option (λ m, dom (clients m)) ∅ (handlers w !! i).
Proof.
  intros Hstep. destruct e as [p|j addr clk|j now].
  - injection Hstep as <- <-. simpl.
    destruct (decide (i < length (handlers w))%nat) as [Hlt|Hge].
    + rewrite lookup_app_l by done. apply union_subseteq_r.
    + rewrite lookup_app_r by lia.
      destruct (i - length (handlers w))%nat as [|n]; simpl.
      * destruct p; simpl; rewrite dom_empty_L; apply empty_subseteq.
      * apply empty_subseteq.
  - apply step_Serve in Hstep as (m & Hm & Hcase). simpl.
    destruct (decide (j = i)) as [->|Hne].
    + unfold identity.
      destruct (Net.SplitHostPort addr) as [[ip port]|err].
      * destruct Hcase as (ok & store' & cs' & Hadm & _ & _ & ->).
        apply admission_Some in Hadm as (lim & _ & _ & _ & ->).
        rewrite list_lookup_insert_eq by (by eapply lookup_lt_Some).
        rewrite Hm. simpl. rewrite dom_touch_getOrCreate.
        by rewrite (right_id_L ∅ (∪)).
      * destruct Hcase as (_ & _ & ->).
        rewrite list_lookup_insert_eq by (by eapply lookup_lt_Some).
        rewrite Hm. simpl. set_solver.
    + assert (handlers w' !! i = handlers w !! i) as ->; [|set_solver].
      destruct (Net.SplitHostPort addr) as [[ip port]|err].
      * destruct Hcase as (ok & store' & cs' & _ & _ & _ & ->).
        by rewrite list_lookup_insert_ne.
      * destruct Hcase as (_ & _ & ->). by rewrite list_lookup_insert_ne.
  - simpl in Hstep.
    destruct (handlers w !! j) as [m|] eqn:Hm; simpl in Hstep; [|done].
    injection Hstep as <- <-. simpl.
    destruct (decide (j = i)) as [->|Hne].
    + rewrite list_lookup_insert_eq by (by eapply lookup_lt_Some).
      rewrite Hm. simpl. etrans; [apply dom_sweep|apply union_subseteq_r].
    + rewrite list_lookup_insert_ne by done. set_solver.
Qed.

Lemma run_registry (i : nat) (es : list Event) :
  ∀ (w : World) (os : list (option Z)) (w' : World),
    run es w = Some (os, w') →
    from_option (λ m, dom (clients m)) ∅ (handlers w' !! i)
    ⊆ Trace.identities_seen i es
      ∪ from_option (λ m, dom (clients m)) ∅ (handlers w !! i).
Proof.
  induction es as [|e es IH]; intros w os w' Hrun; simpl in Hrun.
  - injection Hrun as <- <-. set_solver.
  - destruct (step e w) as [[o w1]|] eqn:Hstep; simpl in Hrun; [|done].
    destruct (run es w1) as [[os1 w2]|] eqn:Hrest; simpl in Hrun; [|done].
    injection Hrun as <- <-.
    rewrite identities_seen_cons.
    pose proof (step_registry i e w o w1 Hstep) as Hone.
    pose proof (IH w1 os1 w2 Hrest) as Hrec.
    etrans; [exact Hrec|].
    apply union_least; [|etrans; [exact Hone|]].
    + etrans; [apply union_subseteq_r|apply union_subseteq_l].
    + apply union_least.
      * etrans; [apply union_subseteq_l|apply union_subseteq_l].
      * apply union_subseteq_r.
Qed.

(** X19: in every state the process reaches from package initialisation,
    the registry of a handler holds entries only for identities that sent
    that handler a request with a remote address that splits: requests to
    other handlers, requests with another kind of address and sweeper
    passes add no entry. *)
Theorem X19_registry_holds_only_identities_seen
        (es : list Event) (os : list (option Z)) (w : World)
        (i : nat) (m : Middleware) (ip : string) :
  run es boot = Some (os, w) →
  handlers w !! i = Some m →
  is_Some (clients m !! ip) →
  ip ∈ Trace.identities_seen i es.
Proof.
  intros Hrun Hm Hip. pose proof (run_registry i es boot os w Hrun) as Hsub.
  rewrite Hm in Hsub. simpl in Hsub. apply elem_of_dom in Hip.
  rewrite (right_id_L ∅ (∪)) in Hsub. by apply Hsub.
Qed.

(** X20: in every state the process reaches, requests to one handler that
    read one clock value inside [Allow], with addresses that split, are
    all answered without a panic, and at most the burst of the handler's
    preset are forwarded in total, however many different clients they
    come from. *)
Theorem X20_one_instant_forwards_at_most_the_burst
        (es : list Event) (os : list (option Z)) (w : World)
        (i : nat) (p : Preset) (T : Z) (reqs : list (string * Clock)) :
  run es boot = Some (os, w) →
  built es !! i = Some p →
  Forall (λ r, is_Some (identity r.1) ∧ t_allow r.2 = T) reqs →
  ∃ os' w',
    run (requests_to i reqs) w = Some (os', w')
    ∧ length os' = length reqs
    ∧ (admitted os' ≤ Z.to_nat (capacity p))%nat.
Proof.
  intros Hrun Hp Hall.
  pose proof (run_consistent es [] boot os w boot_consistent Hrun)
    as [Hdom Hhs].
  pose proof (run_configured es boot os w boot_configured Hrun) as Hconf.
  simpl in Hhs.
  destruct (Forall2_lookup_l _ _ _ _ _ Hhs Hp) as (m & Hm & Hrl & Hal).
  destruct (Hconf p) as (lim & Hlim & Hb). rewrite <- Hrl in Hlim.
  destruct (same_instant_requests i T reqs w m lim) as
    (os' & w' & m' & Hrun' & Hlen & Hadm & _); [done|done|done| |done|].
  { rewrite Hb. by destruct p. }
  exists os', w'. rewrite Hb in Hadm. done.
Qed.

(** ** The theorems on the rest of the package at concrete inputs *)

Lemma X1_witness :
  Middlewares.LoggerMiddleware Examples.counting fresh Examples.served ([], 0%nat)
  = Web.Returned
      (WriteHeader StatusOK fresh,
       ([ {| Slog.Msg := "ip_address";
             Slog.Attrs :=
               [ ("10.0.0.1"%string, "host"%string);
                 ("api.example.com"%string, "server_addr"%string);
                 ("127.0.0.1:8080"%string, "user_agent"%string);
                 ("curl/8.0"%string,
                  "GET - / (10.0.0.1:40000)"%string) ] |} ],
        1%nat)).
Proof.
  apply (X1_logger_record_is_keyed_by_values
           Examples.counting fresh Examples.served [] 0%nat
           "10.0.0.1" "40000" "127.0.0.1:8080").
  - vm_compute. reflexivity.
  - reflexivity.
Defined.

Lemma X2_witness :
  Middlewares.LoggerMiddleware Examples.counting fresh Examples.unserved
                               ([], 0%nat)
  = Web.Panicked.
Proof.
  apply (X2_logger_panics_without_local_address
           Examples.counting fresh Examples.unserved ([], 0%nat)
           "10.0.0.1" "40000").
  - vm_compute. reflexivity.
  - intros srvAddr. discriminate.
Defined.

Lemma X3_witness :
  Middlewares.LoggerMiddleware Examples.counting fresh Examples.portless
                               ([], 0%nat)
  = Web.Returned (WriteHeader StatusInternalServerError fresh, ([], 0%nat)).
Proof.
  apply (X3_logger_unsplittable_address
           Examples.counting fresh Examples.portless ([], 0%nat)
           Net.missingPort).
  reflexivity.
Defined.

Lemma X4_witness :
  Middlewares.ClerkAuthMiddleware
    Examples.verify_one Examples.counting fresh
    (Examples.with_header "Authorization" "Bearer tok123") 0%nat
  = Examples.counting fresh
      (Web.WithContext
         (Examples.with_header "Authorization" "Bearer tok123")
         ((Middlewares.ClerkSessionName, Web.Session "session-1"%string)
          :: Web.ReqContext
               (Examples.with_header "Authorization" "Bearer tok123")))
      0%nat.
Proof.
  apply (X4_clerk_auth_forwards_verified_bearer
           Examples.verify_one Examples.counting fresh
           (Examples.with_header "Authorization" "Bearer tok123") 0%nat
           "tok123" "session-1").
  - vm_compute. reflexivity.
  - reflexivity.
  - reflexivity.
Defined.

Lemma X5_witness :
  ∃ msg,
    Middlewares.ClerkAuthMiddleware
      Examples.verify_one Examples.counting fresh
      (Examples.with_header "Authorization" "Basic dXNlcg") 0%nat
    = (Web.Error fresh msg Web.StatusUnauthorized, 0%nat).
Proof.
  destruct (X5_clerk_auth_rejects_everything_else
              Examples.verify_one Examples.counting fresh
              (Examples.with_header "Authorization" "Basic dXNlcg") 0%nat)
    as (msg & Hres & _).
  - intros token session Hh. vm_compute in Hh. discriminate.
  - exists msg. exact Hres.
Defined.

Lemma X6_witness :
  Middlewares.ClerkWebhookMiddleware
    "whsec" Examples.counting fresh
    (Examples.with_header "X-Clerk-Signature" "whsec") 0%nat
  = Examples.counting fresh
      (Examples.with_header "X-Clerk-Signature" "whsec") 0%nat.
Proof.
  apply (X6_clerk_webhook_forwards_on_the_secret
           Examples.counting "whsec" fresh
           (Examples.with_header "X-Clerk-Signature" "whsec") 0%nat).
  - discriminate.
  - vm_compute. reflexivity.
Defined.

Lemma X7_witness :
  ∃ msg,
    Middlewares.ClerkWebhookMiddleware
      "" Examples.counting fresh Examples.portless 0%nat
    = (Web.Error fresh msg StatusInternalServerError, 0%nat).
Proof.
  apply (X7_clerk_webhook_rejects
           Examples.counting "" fresh Examples.portless 0%nat).
  left. reflexivity.
Defined.




Lemma X13_witness :
  JWT.Generate Z id Examples.sign_stub Examples.service
               {| JWT.ID := "user123"; JWT.Email := "user@example.com" |}
               (Some 30) Scenario.T Scenario.T Scenario.T
  = Web.Returned ("signed"%string, None).
Proof.
  apply (X13_Generate_expiration
           Z id Examples.sign_stub Examples.service
           {| JWT.ID := "user123"; JWT.Email := "user@example.com" |}
           30 Scenario.T Scenario.T Scenario.T).
  lia.
Defined.

Lemma X14_witness :
  JWT.Verify Examples.parse_stub Examples.service "a.b.c"
  = ({| JWT.ID := "user123"; JWT.Email := "<nil>" |}, None).
Proof.
  apply (X14_Verify_prints_the_claims
           Examples.parse_stub Examples.service "a.b.c"
           Examples.token_without_sub
           {[ "jti"%string := JWT.ClaimString "user123" ]} "other.com").
  - reflexivity.
  - reflexivity.
Defined.

Lemma X15_witness :
  Hash.decodeHash Examples.scan_version Examples.scan_params
                  Examples.decode_stub "$argon2id$v=19$no-parameters"
  = inr Hash.errInvalidHash.
Proof.
  apply (X15_decodeHash_needs_five_dollars
           Examples.scan_version Examples.scan_params Examples.decode_stub
           Examples.key_stub "$argon2id$v=19$no-parameters" "password").
  vm_compute. lia.
Defined.

Lemma X16_witness :
  Hash.decodeHash Examples.scan_version Examples.scan_params
                  Examples.decode_stub
                  ("junk" ++ "$" ++ "argon2i" ++ "$"
                   ++ "v=19$m=65536,t=3,p=2$ssss$kkkk")
  = Hash.decodeHash Examples.scan_version Examples.scan_params
                    Examples.decode_stub
                    ("$argon2id$" ++ "v=19$m=65536,t=3,p=2$ssss$kkkk").
Proof.
  apply (X16_decodeHash_ignores_the_variant
           Examples.scan_version Examples.scan_params Examples.decode_stub
           Examples.key_stub "junk" "argon2i"
           "v=19$m=65536,t=3,p=2$ssss$kkkk" "password").
  - reflexivity.
  - reflexivity.
Defined.

Lemma X17_witness :
  ∃ encoded,
    Hash.GenerateHashString Examples.encode_stub Examples.key_stub
                            Examples.rand_stub "password"
    = (encoded, None)
    ∧ Hash.IsMatchingInputAndHash
        Examples.scan_version Examples.scan_params Examples.decode_stub
        Examples.key_stub "password" encoded
      = (true, None).
Proof.
  destruct (X17_generated_hash_matches_its_input
              Examples.scan_version Examples.scan_params Examples.encode_stub
              Examples.decode_stub Examples.key_stub Examples.rand_stub
              "password" Examples.salt_stub)
    as (encoded & Hgen & _ & Hmatch & _).
  - reflexivity.
  - reflexivity.
  - vm_compute. reflexivity.
  - vm_compute. reflexivity.
  - vm_compute. reflexivity.
  - vm_compute. reflexivity.
  - vm_compute. reflexivity.
  - vm_compute. reflexivity.
  - exists encoded. split; [exact Hgen|exact Hmatch].
Defined.

Lemma X18_witness :
  ∃ os' w',
    run (Trace.without_sweeps Scenario.A_returns_after_eviction) boot
    = Some (os', w')
    ∧ Trace.answers os'
      = Trace.answers (Examples.outputs Scenario.A_returns_after_eviction).
Proof.
  destruct (X18_sweeper_never_changes_an_answer
              Scenario.A_returns_after_eviction
              (Examples.outputs Scenario.A_returns_after_eviction)
              (Examples.final Scenario.A_returns_after_eviction))
    as (os' & w' & Hrun & Hans & _).
  - vm_compute. reflexivity.
  - exists os', w'. split; [exact Hrun|exact Hans].
Defined.

Lemma X19_witness :
  "10.0.0.2"%string ∈ Trace.identities_seen 0 Scenario.A_saturates_then_B.
Proof.
  apply (X19_registry_holds_only_identities_seen
           Scenario.A_saturates_then_B
           (Examples.outputs Scenario.A_saturates_then_B)
           (Examples.final Scenario.A_saturates_then_B)
           0 (Examples.first_handler Scenario.A_saturates_then_B)
           "10.0.0.2").
  - vm_compute. reflexivity.
  - vm_compute. reflexivity.
  - vm_compute. eexists. reflexivity.
Defined.

Lemma X20_witness :
  ∃ os' w',
    run (requests_to 0 Examples.three_clients) Scenario.strict_built
    = Some (os', w')
    ∧ length os' = 3%nat
    ∧ (admitted os' ≤ 10)%nat.
Proof.
  apply (X20_one_instant_forwards_at_most_the_burst
           [Build Strict] [None] Scenario.strict_built 0 Strict Scenario.T
           Examples.three_clients).
  - reflexivity.
  - reflexivity.
  - repeat constructor; vm_compute; eexists; reflexivity.
Defined.
